(** * queuectl: the job record, the persistent store, the queue facade and
      the worker loop, embedded from the Python sources.

    Layout follows the repository: [Job] (job.py), [Config] (config.py),
    [Storage] (storage.py), [QueueManager] (queue_manager.py) and [Worker]
    (worker.py).  Everything that touches the files, the wall clock, the
    random generator, a subprocess or [time.sleep] lives in the monad [M]
    over a [World]; the worker's functions that mutate the job object they
    were handed live in [W], which adds that object to the state. *)

From stdpp Require Import base option list strings pretty gmap fin_maps.
From Stdlib Require Import ZArith NArith Lia.

Open Scope Z_scope.

(** ** Python values and exceptions *)

(** The JSON values that occur in the files: [null], strings and integers. *)
Inductive Value :=
| VNone
| VStr (s : string)
| VInt (z : Z).

#[global] Instance Value_eq_dec : EqDecision Value.
Proof. solve_decision. Defined.

(** A JSON object / Python [dict] with string keys, read by key only. *)
Abbreviation Dict := (gmap string Value).

(** [jobs.json]: job id to job dictionary.  Python dictionaries and
    [json.load]/[json.dump] keep insertion order, and the worker takes the
    first pending entry, so the collection is an association list. *)
Definition Jobs : Type := list (string * Dict).

(** Exceptions.  [Raised msg] is any exception of the environment, known by
    its message [str(e)].  [IllTyped] is the boundary of the embedding: the
    Python code would keep a value of another type than the annotated one in
    the attribute; the typed record cannot, and the operation stops there. *)
Inductive Exn :=
| KeyError (key : Value)
| IllTyped (key : string)
| TimeoutExpired (cmd : string)
| Raised (msg : string).

Definition repr (v : Value) : string :=
  match v with
  | VNone => "None"
  | VStr s => "'" +:+ s +:+ "'"
  | VInt z => pretty z
  end.

(** [str(e)] *)
Definition Exn_str (e : Exn) : string :=
  match e with
  | KeyError k => repr k
  | IllTyped k => k
  | TimeoutExpired cmd => "Command '" +:+ cmd +:+ "' timed out after 300 seconds"
  | Raised msg => msg
  end.

(** [bool(s)] for a string, and for an [Optional[str]]. *)
Definition truthy (s : string) : bool :=
  if decide (s = "") then false else true.

Definition truthy_opt (o : option string) : bool :=
  match o with
  | Some s => truthy s
  | None => false
  end.

(** ** The world outside the program *)

(** What [subprocess.run(command, shell=True, capture_output=True, text=True,
    timeout=300)] did: it returned a completed process, or raised. *)
Record CompletedProcess := {
  returncode : Z;
  stdout : string;
  stderr : string
}.

Inductive RunResult :=
| RunReturned (result : CompletedProcess)
| RunTimedOut
| RunRaised (msg : string).

(** The answers of the environment, one stream per kind of call.
    [time.sleep] raises [ValueError] on a negative delay and [OverflowError]
    on one too large for the platform timer; [sleep_raises n d] is the message
    of the exception the [n]-th call raises on delay [d], if it raises. *)
Record Oracle := {
  uuid4_hex : nat → string;
  utcnow_isoformat : nat → string;
  subprocess_run : nat → string → RunResult;
  sleep_raises : nat → Z → option string
}.

(** One worker or client process together with the files it shares. *)
Record World := {
  oracle : Oracle;
  draws : nat;                    (* uuid4 calls so far *)
  ticks : nat;                    (* utcnow calls so far *)
  runs : nat;                     (* subprocess.run calls so far *)
  sleep_log : list Z;             (* arguments of the time.sleep calls, oldest first *)
  jobs_json : Jobs;               (* contents of jobs.json *)
  config_json : gmap string Z     (* contents of config.json *)
}.

(** [workers.json]: the list of [{'id': ..., 'pid': ...}] registrations.  It
    is a file of its own, touched by the registry functions only, and is
    kept next to the [World] where both are needed. *)
Record WorkerInfo := {
  worker_id : string;
  pid : Z
}.

Abbreviation Workers := (list WorkerInfo).

(** ** The monad: state and exceptions *)

Definition ST (S A : Type) : Type := S → (Exn + A) * S.

#[global] Instance ST_ret {S} : MRet (ST S) := λ A a s, (inr a, s).

#[global] Instance ST_bind {S} : MBind (ST S) := λ A B f m s,
  match m s with
  | (inr a, s') => f a s'
  | (inl e, s') => (inl e, s')
  end.

Abbreviation M := (ST World).

(** Running on the jobs side, or on the registry side, of both files. *)
Definition in_world {A} (m : M A) : ST (World * Workers) A := λ '(w, ws),
  match m w with
  | (r, w') => (r, (w', ws))
  end.

Definition in_workers {A} (m : ST Workers A) : ST (World * Workers) A :=
  λ '(w, ws),
  match m ws with
  | (r, ws') => (r, (w, ws'))
  end.

Definition raise {S A} (e : Exn) : ST S A := λ s, (inl e, s).

(** [try: body  except ... as e: handler(e)] *)
Definition try_except {S A} (body : ST S A) (handler : Exn → ST S A) : ST S A :=
  λ s,
  match body s with
  | (inr a, s') => (inr a, s')
  | (inl e, s') => handler e s'
  end.

(** [try: body  finally: cleanup] *)
Definition try_finally {S A} (body : ST S A) (cleanup : ST S unit) : ST S A :=
  λ s,
  match body s with
  | (r, s') =>
      match cleanup s' with
      | (inr _, s'') => (r, s'')
      | (inl e, s'') => (inl e, s'')
      end
  end.

(** [str(uuid.uuid4())]: the 32 hexadecimal digits in groups 8-4-4-4-12. *)
Definition str_uuid (hex : string) : string :=
  String.substring 0 8 hex +:+ "-" +:+ String.substring 8 4 hex +:+ "-" +:+
  String.substring 12 4 hex +:+ "-" +:+ String.substring 16 4 hex +:+ "-" +:+
  String.substring 20 12 hex.

Definition uuid4_str : M string := λ w,
  (inr (str_uuid (uuid4_hex (oracle w) (draws w))),
   {| oracle := oracle w; draws := S (draws w); ticks := ticks w;
      runs := runs w; sleep_log := sleep_log w; jobs_json := jobs_json w;
      config_json := config_json w |}).

(** [datetime.utcnow().isoformat() + 'Z'] *)
Definition utcnow_z : M string := λ w,
  (inr (utcnow_isoformat (oracle w) (ticks w) +:+ "Z"),
   {| oracle := oracle w; draws := draws w; ticks := S (ticks w);
      runs := runs w; sleep_log := sleep_log w; jobs_json := jobs_json w;
      config_json := config_json w |}).

(** [subprocess.run(command, ...)] *)
Definition run_subprocess (command : string) : M CompletedProcess := λ w,
  let w' := {| oracle := oracle w; draws := draws w; ticks := ticks w;
               runs := S (runs w); sleep_log := sleep_log w;
               jobs_json := jobs_json w; config_json := config_json w |} in
  match subprocess_run (oracle w) (runs w) command with
  | RunReturned result => (inr result, w')
  | RunTimedOut => (inl (TimeoutExpired command), w')
  | RunRaised msg => (inl (Raised msg), w')
  end.

(** [time.sleep(d)] *)
Definition time_sleep (d : Z) : M unit := λ w,
  let w' := {| oracle := oracle w; draws := draws w; ticks := ticks w;
               runs := runs w; sleep_log := sleep_log w ++ [d];
               jobs_json := jobs_json w; config_json := config_json w |} in
  match sleep_raises (oracle w) (length (sleep_log w)) d with
  | None => (inr tt, w')
  | Some msg => (inl (Raised msg), w')
  end.

(** [x or y] where [x : Optional[str]] and [y] is evaluated only if needed. *)
Definition or_else (x : option string) (y : M string) : M string :=
  match x with
  | Some s => if truthy s then mret s else y
  | None => y
  end.

(** ** job.py *)

Inductive JobState := PENDING | PROCESSING | COMPLETED | FAILED | DEAD.

#[global] Instance JobState_eq_dec : EqDecision JobState.
Proof. solve_decision. Defined.

Definition JobState_value (s : JobState) : string :=
  match s with
  | PENDING => "pending"
  | PROCESSING => "processing"
  | COMPLETED => "completed"
  | FAILED => "failed"
  | DEAD => "dead"
  end.

(** [for state in JobState], in definition order. *)
Definition JobState_members : list JobState :=
  [PENDING; PROCESSING; COMPLETED; FAILED; DEAD].

Module Job.

(** A [Job] object.  [state] holds the string value of the state, as in
    the source.  [attempts] is a count: created 0, incremented by one,
    reset to 0; it is embedded as [N], which leaves negative counts of a
    hand-edited file outside the model. *)
Record t := {
  id : string;
  command : string;
  state : string;
  attempts : N;
  max_retries : Z;
  created_at : string;
  updated_at : string;
  last_error : option string;
  output : option string
}.

Definition __init__ (command : string) (job_id : option string)
    (state : string) (attempts : N) (max_retries : Z)
    (created_at updated_at last_error output : option string) : M t :=
  id ← or_else job_id uuid4_str;
  created_at ← or_else created_at utcnow_z;
  updated_at ← or_else updated_at utcnow_z;
  mret {| id := id; command := command; state := state;
          attempts := attempts; max_retries := max_retries;
          created_at := created_at; updated_at := updated_at;
          last_error := last_error; output := output |}.

Definition of_optional (o : option string) : Value :=
  match o with
  | Some s => VStr s
  | None => VNone
  end.

Definition to_dict (self : t) : Dict :=
  <["id" := VStr (id self)]> (
  <["command" := VStr (command self)]> (
  <["state" := VStr (state self)]> (
  <["attempts" := VInt (Z.of_N (attempts self))]> (
  <["max_retries" := VInt (max_retries self)]> (
  <["created_at" := VStr (created_at self)]> (
  <["updated_at" := VStr (updated_at self)]> (
  <["last_error" := of_optional (last_error self)]> (
  <["output" := of_optional (output self)]> ∅)))))))).

(** Reading a value at its annotated type. *)
Definition as_str (key : string) (v : Value) : M string :=
  match v with
  | VStr s => mret s
  | _ => raise (IllTyped key)
  end.

Definition as_optional (key : string) (v : Value) : M (option string) :=
  match v with
  | VStr s => mret (Some s)
  | VNone => mret None
  | VInt _ => raise (IllTyped key)
  end.

Definition as_int (key : string) (v : Value) : M Z :=
  match v with
  | VInt z => mret z
  | _ => raise (IllTyped key)
  end.

Definition as_count (key : string) (v : Value) : M N :=
  match v with
  | VInt z => if decide (0 ≤ z) then mret (Z.to_N z) else raise (IllTyped key)
  | _ => raise (IllTyped key)
  end.

(** [data[key]] *)
Definition subscript (data : Dict) (key : string) : M Value :=
  match data !! key with
  | Some v => mret v
  | None => raise (KeyError (VStr key))
  end.

(** [data.get(key, dflt)] *)
Definition get (data : Dict) (key : string) (dflt : Value) : Value :=
  default dflt (data !! key).

Definition from_dict (data : Dict) : M t :=
  command ← subscript data "command" ≫= as_str "command";
  job_id ← subscript data "id" ≫= as_optional "id";
  state ← as_str "state" (get data "state" (VStr (JobState_value PENDING)));
  attempts ← as_count "attempts" (get data "attempts" (VInt 0));
  max_retries ← as_int "max_retries" (get data "max_retries" (VInt 3));
  created_at ← as_optional "created_at" (get data "created_at" VNone);
  updated_at ← as_optional "updated_at" (get data "updated_at" VNone);
  last_error ← as_optional "last_error" (get data "last_error" VNone);
  output ← as_optional "output" (get data "output" VNone);
  __init__ command job_id state attempts max_retries
           created_at updated_at last_error output.

Definition update_state (state : JobState) (error output : option string)
    (self : t) : M t :=
  now ← utcnow_z;
  mret {| id := id self; command := command self;
          state := JobState_value state;
          attempts := attempts self; max_retries := max_retries self;
          created_at := created_at self; updated_at := now;
          last_error := if truthy_opt error then error else last_error self;
          output := if truthy_opt output then output else Job.output self |}.

Definition increment_attempts (self : t) : M t :=
  now ← utcnow_z;
  mret {| id := id self; command := command self; state := state self;
          attempts := (attempts self + 1)%N;
          max_retries := max_retries self;
          created_at := created_at self; updated_at := now;
          last_error := last_error self; output := output self |}.

Definition should_retry (self : t) : bool :=
  bool_decide (Z.of_N (attempts self) < max_retries self).

Definition get_backoff_delay (self : t) (base : Z) : Z :=
  base ^ Z.of_N (attempts self).

(** [job.attempts = 0] *)
Definition set_attempts (n : N) (self : t) : t :=
  {| id := id self; command := command self; state := state self;
     attempts := n; max_retries := max_retries self;
     created_at := created_at self; updated_at := updated_at self;
     last_error := last_error self; output := output self |}.

End Job.

(** ** config.py *)

Module Config.

Definition DEFAULT_CONFIG : gmap string Z :=
  <["max_retries" := 3]> (
  <["backoff_base" := 2]> (
  <["worker_poll_interval" := 1]> ∅)).

Definition _read_config : M (gmap string Z) := λ w, (inr (config_json w), w).

(** [config.get(key, self.DEFAULT_CONFIG.get(key))]; [None] is Python's. *)
Definition get (key : string) : M (option Z) :=
  config ← _read_config;
  mret (match config !! key with
        | Some v => Some v
        | None => DEFAULT_CONFIG !! key
        end).

(** The callers use the value as an integer. *)
Definition as_int (key : string) (v : option Z) : M Z :=
  match v with
  | Some z => mret z
  | None => raise (IllTyped key)
  end.

Definition _write_config (config : gmap string Z) : M unit := λ w,
  (inr tt,
   {| oracle := oracle w; draws := draws w; ticks := ticks w;
      runs := runs w; sleep_log := sleep_log w; jobs_json := jobs_json w;
      config_json := config |}).

(** [config[key] = value] and write back. *)
Definition set (key : string) (value : Z) : M unit :=
  config ← _read_config;
  _write_config (<[key := value]> config).

Definition get_all : M (gmap string Z) := _read_config.

End Config.

(** ** storage.py *)

Module Storage.

Definition _read_jobs : M Jobs := λ w, (inr (jobs_json w), w).

Definition _write_jobs (jobs : Jobs) : M unit := λ w,
  (inr tt,
   {| oracle := oracle w; draws := draws w; ticks := ticks w;
      runs := runs w; sleep_log := sleep_log w; jobs_json := jobs;
      config_json := config_json w |}).

(** [jobs.get(k)] *)
Fixpoint dict_get (jobs : Jobs) (k : string) : option Dict :=
  match jobs with
  | [] => None
  | (k', v) :: rest => if decide (k' = k) then Some v else dict_get rest k
  end.

(** [jobs[k] = v]: an existing key keeps its place, a new one goes last. *)
Fixpoint dict_set (jobs : Jobs) (k : string) (v : Dict) : Jobs :=
  match jobs with
  | [] => [(k, v)]
  | (k', v') :: rest =>
      if decide (k' = k) then (k, v) :: rest else (k', v') :: dict_set rest k v
  end.

(** [del jobs[k]] *)
Fixpoint dict_del (jobs : Jobs) (k : string) : Jobs :=
  match jobs with
  | [] => []
  | (k', v') :: rest =>
      if decide (k' = k) then rest else (k', v') :: dict_del rest k
  end.

(** [jobs.values()] *)
Definition dict_values (jobs : Jobs) : list Dict := jobs.*2.

Definition save_job (job : Job.t) : M unit :=
  jobs ← _read_jobs;
  _write_jobs (dict_set jobs (Job.id job) (Job.to_dict job)).

Definition get_job (job_id : string) : M (option Job.t) :=
  jobs ← _read_jobs;
  match dict_get jobs job_id with
  | Some job_data =>
      if decide (job_data = ∅) then mret None
      else job ← Job.from_dict job_data; mret (Some job)
  | None => mret None
  end.

(** [[Job.from_dict(d) for d in ds if d['state'] == state.value]] *)
Fixpoint from_dicts_in_state (state : JobState) (ds : list Dict)
    : M (list Job.t) :=
  match ds with
  | [] => mret []
  | job_data :: ds =>
      v ← Job.subscript job_data "state";
      if decide (v = VStr (JobState_value state)) then
        job ← Job.from_dict job_data;
        jobs ← from_dicts_in_state state ds;
        mret (job :: jobs)
      else from_dicts_in_state state ds
  end.

Definition get_jobs_by_state (state : JobState) : M (list Job.t) :=
  jobs ← _read_jobs;
  from_dicts_in_state state (dict_values jobs).

(** [[Job.from_dict(d) for d in ds]] *)
Fixpoint from_dicts (ds : list Dict) : M (list Job.t) :=
  match ds with
  | [] => mret []
  | job_data :: ds =>
      job ← Job.from_dict job_data;
      jobs ← from_dicts ds;
      mret (job :: jobs)
  end.

Definition get_all_jobs : M (list Job.t) :=
  jobs ← _read_jobs;
  from_dicts (dict_values jobs).

Definition delete_job (job_id : string) : M unit :=
  jobs ← _read_jobs;
  match dict_get jobs job_id with
  | Some _ => _write_jobs (dict_del jobs job_id)
  | None => mret tt
  end.

(** [{state.value: 0 for state in JobState}] *)
Definition zero_counts : gmap string Z :=
  list_to_map ((λ state, (JobState_value state, 0)) <$> JobState_members).

(** [counts[job_data['state']] += 1] *)
Definition count_job (counts : gmap string Z) (job_data : Dict)
    : M (gmap string Z) :=
  v ← Job.subscript job_data "state";
  match v with
  | VStr s =>
      match counts !! s with
      | Some n => mret (<[s := n + 1]> counts)
      | None => raise (KeyError v)
      end
  | _ => raise (KeyError v)
  end.

Fixpoint count_jobs (counts : gmap string Z) (ds : list Dict)
    : M (gmap string Z) :=
  match ds with
  | [] => mret counts
  | job_data :: ds => counts ← count_job counts job_data; count_jobs counts ds
  end.

Definition get_job_counts : M (gmap string Z) :=
  jobs ← _read_jobs;
  count_jobs zero_counts (dict_values jobs).

Definition _read_workers : ST Workers Workers := λ ws, (inr ws, ws).

Definition _write_workers (workers : Workers) : ST Workers unit := λ _,
  (inr tt, workers).

Definition register_worker (worker_id : string) (pid : Z) : ST Workers unit :=
  workers ← _read_workers;
  _write_workers (workers ++ [{| worker_id := worker_id; pid := pid |}]).

(** [[w for w in workers if w['id'] != worker_id]] *)
Definition unregister_worker (id : string) : ST Workers unit :=
  workers ← _read_workers;
  _write_workers (filter (λ w, worker_id w ≠ id) workers).

Definition get_workers : ST Workers Workers := _read_workers.

Definition clear_workers : ST Workers unit := _write_workers [].

End Storage.

(** ** queue_manager.py *)

Module QueueManager.

Definition enqueue (command : string) (job_id : option string)
    (max_retries : option Z) : M Job.t :=
  max_retries ← match max_retries with
                | Some m => mret m
                | None => Config.get "max_retries" ≫= Config.as_int "max_retries"
                end;
  job ← Job.__init__ command job_id (JobState_value PENDING) 0 max_retries
                     None None None None;
  Storage.save_job job;;
  mret job.

Definition get_job (job_id : string) : M (option Job.t) :=
  Storage.get_job job_id.

Definition list_jobs (state : option JobState) : M (list Job.t) :=
  match state with
  | Some state => Storage.get_jobs_by_state state
  | None => Storage.get_all_jobs
  end.

Definition retry_job (job_id : string) : M bool :=
  job ← Storage.get_job job_id;
  match job with
  | None => mret false
  | Some job =>
      if decide (Job.state job ≠ JobState_value DEAD) then mret false
      else
        let job := Job.set_attempts 0 job in
        job ← Job.update_state PENDING None None job;
        Storage.save_job job;;
        mret true
  end.

(** The dictionary [get_status] returns. *)
Record Status := {
  job_counts : gmap string Z;
  active_workers : Z;
  workers : Workers
}.

Definition get_status : ST (World * Workers) Status :=
  counts ← in_world Storage.get_job_counts;
  workers ← in_workers Storage.get_workers;
  mret {| job_counts := counts;
          active_workers := Z.of_nat (length workers);
          workers := workers |}.

End QueueManager.

(** ** worker.py *)

Module Worker.

(** The functions below receive a [Job] object and mutate it in place, also
    on the way to an exception; [W] carries that object next to the world.
    The [print] calls and the [self.current_job] bookkeeping, which nothing
    reads, are left out. *)
Abbreviation W := (ST (Job.t * World)).

(** An operation that does not touch the job object. *)
Definition lift {A} (m : M A) : W A := λ '(job, w),
  match m w with
  | (r, w') => (r, (job, w'))
  end.

(** A method call [job.f(...)]. *)
Definition on_job (f : Job.t → M Job.t) : W unit := λ '(job, w),
  match f job w with
  | (inr job', w') => (inr tt, (job', w'))
  | (inl e, w') => (inl e, (job, w'))
  end.

Definition the_job : W Job.t := λ '(job, w), (inr job, (job, w)).

(** The first [job] of [failed_jobs] with [job.should_retry()]; the backoff
    is computed and not used. *)
Fixpoint first_to_retry (failed_jobs : list Job.t) : M (option Job.t) :=
  match failed_jobs with
  | [] => mret None
  | job :: failed_jobs =>
      if Job.should_retry job then
        base ← Config.get "backoff_base" ≫= Config.as_int "backoff_base";
        let backoff := Job.get_backoff_delay job base in
        mret (Some job)
      else first_to_retry failed_jobs
  end.

Definition _get_next_job : M (option Job.t) :=
  pending_jobs ← Storage.get_jobs_by_state PENDING;
  match pending_jobs with
  | [] =>
      failed_jobs ← Storage.get_jobs_by_state FAILED;
      first_to_retry failed_jobs
  | job :: _ =>
      job ← Job.update_state PROCESSING None None job;
      Storage.save_job job;;
      mret (Some job)
  end.

Definition _handle_job_failure (error : string) : W unit :=
  on_job Job.increment_attempts;;
  job ← the_job;
  if Job.should_retry job then
    on_job (Job.update_state FAILED (Some error) None);;
    base ← lift (Config.get "backoff_base" ≫= Config.as_int "backoff_base");
    job ← the_job;
    let backoff := Job.get_backoff_delay job base in
    lift (time_sleep backoff);;
    on_job (Job.update_state PENDING (Some error) None)
  else
    on_job (Job.update_state DEAD (Some error) None).

(** The [try] statement of [_process_job], on the job object it was given. *)
Definition process_job_body : W unit :=
  try_finally
    (try_except
       (job ← the_job;
        result ← lift (run_subprocess (Job.command job));
        if decide (returncode result = 0) then
          on_job (Job.update_state COMPLETED None (Some (stdout result)))
        else
          let error :=
            if truthy (stderr result) then stderr result
            else "Command exited with code " +:+ pretty (returncode result) in
          _handle_job_failure error)
       (λ e,
          match e with
          | TimeoutExpired _ => _handle_job_failure "Job timed out"
          | _ => _handle_job_failure (Exn_str e)
          end))
    (job ← the_job; lift (Storage.save_job job)).

Definition _process_job (job : Job.t) : M unit := λ w,
  match process_job_body (job, w) with
  | (r, (_, w')) => (r, w')
  end.

(** The body of the [while self.running] loop of [start]. *)
Definition start_loop_body : M unit :=
  job ← _get_next_job;
  match job with
  | Some job => _process_job job
  | None =>
      interval ← Config.get "worker_poll_interval"
                   ≫= Config.as_int "worker_poll_interval";
      time_sleep interval
  end.

(** [self.worker_id = worker_id or str(uuid.uuid4())] of [__init__]; the
    signal handlers it installs only ever clear [self.running]. *)
Definition __init__ (worker_id : option string) : M string :=
  or_else worker_id uuid4_str.

(** The [while self.running] loop.  [self.running] is set by [start] and
    cleared by the signal handler, so how often the test succeeds is the
    environment's choice: [turns] is the number of turns taken before the
    shutdown signal is seen.  An exception in a turn ends the loop. *)
Fixpoint start_loop (turns : nat) : M unit :=
  match turns with
  | O => mret tt
  | S turns => start_loop_body;; start_loop turns
  end.

(** [start], for the worker [worker_id] running as process [pid]. *)
Definition start (worker_id : string) (pid : Z) (turns : nat)
    : ST (World * Workers) unit :=
  in_workers (Storage.register_worker worker_id pid);;
  try_finally (in_world (start_loop turns))
              (in_workers (Storage.unregister_worker worker_id)).

End Worker.

(** ** Vocabulary of the statements *)

(** [m] run from [s] returns [a] and leaves [s']. *)
Definition returns {S A} (m : ST S A) (s : S) (a : A) (s' : S) : Prop :=
  m s = (inr a, s').

(** [m] run from [s] raises [e] and leaves [s']. *)
Definition raises {S A} (m : ST S A) (s : S) (e : Exn) (s' : S) : Prop :=
  m s = (inl e, s').

(** The result of running [m] from [s], and the state it leaves. *)
Definition outcome {S A} (m : ST S A) (s : S) : Exn + A := (m s).1.

Definition after {S A} (m : ST S A) (s : S) : S := (m s).2.

(** What [Job.__init__] establishes for every object it builds, and every
    method keeps: the three fields it fills with [or] are not empty. *)
Definition Job_wf (j : Job.t) : Prop :=
  Job.id j ≠ "" ∧ Job.created_at j ≠ "" ∧ Job.updated_at j ≠ "".

(** What the program keeps true of [jobs.json]: keys are unique, and every
    entry is the dictionary of a job object, filed under that job's id. *)
Definition entry_wf (entry : string * Dict) : Prop :=
  ∃ j, Job_wf j ∧ entry = (Job.id j, Job.to_dict j).

Definition jobs_wf (jobs : Jobs) : Prop :=
  NoDup jobs.*1 ∧ Forall entry_wf jobs.

(** The job filed under [job_id], read back field by field. *)
Definition stored (jobs : Jobs) (job_id : string) (j : Job.t) : Prop :=
  Storage.dict_get jobs job_id = Some (Job.to_dict j).

(** The sum of the values of a counts mapping. *)
Definition sum_values (counts : gmap string Z) : Z :=
  map_fold (λ _ n acc, n + acc) 0 counts.

(** The five state names, as the key set of a counts mapping. *)
Definition state_names : gset string :=
  list_to_set (JobState_value <$> JobState_members).

(** A dictionary whose ['state'] is one of the five state names. *)
Definition has_valid_state (job_data : Dict) : Prop :=
  ∃ state, job_data !! "state" = Some (VStr (JobState_value state)).

(** [op], run on a well-formed file, lowers the attempts count of no stored
    job: whatever was filed under an id is still filed there, with at least
    as many attempts. *)
Definition never_lowers_attempts {A} (op : M A) : Prop :=
  ∀ w r w' job_id j,
    jobs_wf (jobs_json w) → op w = (r, w') →
    stored (jobs_json w) job_id j →
    ∃ j', stored (jobs_json w') job_id j' ∧
          (Job.attempts j ≤ Job.attempts j')%N.

(** How a stored job can differ after the worker has been at the file: the
    identifying fields are the same, attempts did not go down, and a job
    that was neither pending nor failed is exactly as it was. *)
Definition worked_on (j j' : Job.t) : Prop :=
  Job.id j' = Job.id j ∧ Job.command j' = Job.command j ∧
  Job.max_retries j' = Job.max_retries j ∧
  Job.created_at j' = Job.created_at j ∧
  (Job.attempts j ≤ Job.attempts j')%N ∧
  (Job.state j ≠ "pending" → Job.state j ≠ "failed" → j' = j).

(** ** Sample data for the worked examples *)

(** An environment in which ["exit 0"] succeeds silently, ["echo hi"] prints,
    ["sleep 400"] runs into the timeout, ["./flaky.sh"] times out on the
    first run of the process and succeeds afterwards, and any other command
    exits with status 1 and an empty stderr; [time.sleep] rejects negative
    delays. *)
Definition sample_oracle : Oracle := {|
  uuid4_hex := λ _, "3f2b8c1e9d4a4f6b8e7a5c2d1b0f9e8d";
  utcnow_isoformat := λ n,
    match n with
    | 0%nat => "2025-11-03T09:00:00"
    | 1%nat => "2025-11-03T09:00:01"
    | 2%nat => "2025-11-03T09:00:02"
    | 3%nat => "2025-11-03T09:00:03"
    | 4%nat => "2025-11-03T09:00:04"
    | 5%nat => "2025-11-03T09:00:05"
    | _ => "2025-11-03T09:01:00"
    end;
  subprocess_run := λ n command,
    if decide (command = "exit 0") then
      RunReturned {| returncode := 0; stdout := ""; stderr := "" |}
    else if decide (command = "echo hi") then
      RunReturned {| returncode := 0; stdout := "hi"; stderr := "" |}
    else if decide (command = "sleep 400") then RunTimedOut
    else if decide (command = "./flaky.sh") then
      match n with
      | O => RunTimedOut
      | S _ => RunReturned {| returncode := 0; stdout := "done"; stderr := "" |}
      end
    else RunReturned {| returncode := 1; stdout := ""; stderr := "" |};
  sleep_raises := λ _ d,
    if decide (d < 0) then Some "sleep length must be non-negative" else None
|}.

Definition sample_world (jobs : Jobs) (config : gmap string Z) : World := {|
  oracle := sample_oracle; draws := 0; ticks := 0; runs := 0;
  sleep_log := []; jobs_json := jobs; config_json := config
|}.

Definition sample_job (job_id command state : string) (attempts : N)
    (max_retries : Z) (last_error output : option string) : Job.t := {|
  Job.id := job_id; Job.command := command; Job.state := state;
  Job.attempts := attempts; Job.max_retries := max_retries;
  Job.created_at := "2025-11-02T18:30:00Z";
  Job.updated_at := "2025-11-02T18:31:07Z";
  Job.last_error := last_error; Job.output := output
|}.

(** A dead-lettered job, as it sits in the file. *)
Definition dead_job : Job.t :=
  sample_job "job-1" "exit 1" "dead" 3 3
             (Some "Command exited with code 1") None.

(** A job left in state failed, with retries to spare. *)
Definition failed_job : Job.t :=
  sample_job "job-2" "exit 0" "failed" 1 3 (Some "Job timed out") None.

(** A job that succeeded once with output and is being processed again. *)
Definition rerun_job : Job.t :=
  sample_job "job-3" "exit 0" "processing" 0 3 None (Some "hi").

Definition file_of (jobs : list Job.t) : Jobs :=
  (λ j, (Job.id j, Job.to_dict j)) <$> jobs.

(** ** Running the monad *)

(** Unfolding the monad's plumbing. *)
Ltac run_st :=
  repeat (unfold mbind, ST_bind, mret, ST_ret, raise, returns, raises; cbn).

Lemma bind_returns {S A B} (m : ST S A) (f : A → ST S B) s a s' :
  m s = (inr a, s') → (m ≫= f) s = f a s'.
Proof. intros H. unfold mbind, ST_bind. by rewrite H. Qed.

Lemma bind_raises {S A B} (m : ST S A) (f : A → ST S B) s e s' :
  m s = (inl e, s') → (m ≫= f) s = (inl e, s').
Proof. intros H. unfold mbind, ST_bind. by rewrite H. Qed.

Lemma truthy_ne s : s ≠ "" → truthy s = true.
Proof. intros H. unfold truthy. by destruct (decide (s = "")). Qed.

Lemma truthy_true_ne s : truthy s = true → s ≠ "".
Proof. unfold truthy. by destruct (decide (s = "")). Qed.

Lemma str_uuid_ne hex : str_uuid hex ≠ "".
Proof.
  unfold str_uuid.
  destruct (String.substring 0 8 hex); discriminate.
Qed.

Lemma stamp_ne s : s +:+ "Z" ≠ "".
Proof. by destruct s. Qed.

Lemma to_dict_lookups j :
  Job.to_dict j !! "id" = Some (VStr (Job.id j)) ∧
  Job.to_dict j !! "command" = Some (VStr (Job.command j)) ∧
  Job.to_dict j !! "state" = Some (VStr (Job.state j)) ∧
  Job.to_dict j !! "attempts" = Some (VInt (Z.of_N (Job.attempts j))) ∧
  Job.to_dict j !! "max_retries" = Some (VInt (Job.max_retries j)) ∧
  Job.to_dict j !! "created_at" = Some (VStr (Job.created_at j)) ∧
  Job.to_dict j !! "updated_at" = Some (VStr (Job.updated_at j)) ∧
  Job.to_dict j !! "last_error" = Some (Job.of_optional (Job.last_error j)) ∧
  Job.to_dict j !! "output" = Some (Job.of_optional (Job.output j)).
Proof. repeat split; reflexivity. Qed.

(** Reading back what [to_dict] wrote draws no identifier and no clock. *)
Lemma from_dict_to_dict j w :
  Job_wf j → Job.from_dict (Job.to_dict j) w = (inr j, w).
Proof.
  intros (Hid & Hc & Hu).
  destruct (to_dict_lookups j) as (L1 & L2 & L3 & L4 & L5 & L6 & L7 & L8 & L9).
  unfold Job.from_dict, Job.subscript, Job.get.
  rewrite L1, L2, L3, L4, L5, L6, L7, L8, L9.
  run_st.
  rewrite decide_True by lia.
  rewrite N2Z.id, !truthy_ne by done.
  destruct j as [? ? ? ? ? ? ? [e|] [o|]]; reflexivity.
Qed.

Lemma to_dict_ne_empty j : Job.to_dict j ≠ ∅.
Proof.
  intros H. pose proof (to_dict_lookups j) as (L & _).
  rewrite H in L. by rewrite lookup_empty in L.
Qed.

Lemma to_dict_inj j1 j2 : Job.to_dict j1 = Job.to_dict j2 → j1 = j2.
Proof.
  intros H.
  destruct (to_dict_lookups j1) as (A1 & A2 & A3 & A4 & A5 & A6 & A7 & A8 & A9).
  destruct (to_dict_lookups j2) as (B1 & B2 & B3 & B4 & B5 & B6 & B7 & B8 & B9).
  rewrite H in A1, A2, A3, A4, A5, A6, A7, A8, A9.
  destruct j1 as [i1 c1 s1 a1 m1 ca1 u1 e1 o1], j2 as [i2 c2 s2 a2 m2 ca2 u2 e2 o2].
  cbn in *.
  rewrite B1 in A1. rewrite B2 in A2. rewrite B3 in A3. rewrite B4 in A4.
  rewrite B5 in A5. rewrite B6 in A6. rewrite B7 in A7. rewrite B8 in A8.
  rewrite B9 in A9.
  injection A1 as ->. injection A2 as ->. injection A3 as ->.
  injection A4 as H4. apply N2Z.inj in H4 as ->.
  injection A5 as ->. injection A6 as ->. injection A7 as ->.
  destruct e1, e2, o1, o2; cbn in A8, A9; congruence.
Qed.

(** *** Job methods *)

Lemma update_state_returns state error output job w :
  ∃ now w',
    Job.update_state state error output job w =
      (inr {| Job.id := Job.id job; Job.command := Job.command job;
              Job.state := JobState_value state;
              Job.attempts := Job.attempts job;
              Job.max_retries := Job.max_retries job;
              Job.created_at := Job.created_at job; Job.updated_at := now;
              Job.last_error :=
                if truthy_opt error then error else Job.last_error job;
              Job.output :=
                if truthy_opt output then output else Job.output job |}, w') ∧
    now ≠ "" ∧ jobs_json w' = jobs_json w ∧ config_json w' = config_json w ∧
    oracle w' = oracle w ∧ sleep_log w' = sleep_log w ∧ runs w' = runs w.
Proof.
  eexists _, _. split; [reflexivity|].
  split; [|done].
  cbn. destruct (utcnow_isoformat _ _); discriminate.
Qed.

Lemma increment_attempts_returns job w :
  ∃ now w',
    Job.increment_attempts job w =
      (inr {| Job.id := Job.id job; Job.command := Job.command job;
              Job.state := Job.state job;
              Job.attempts := (Job.attempts job + 1)%N;
              Job.max_retries := Job.max_retries job;
              Job.created_at := Job.created_at job; Job.updated_at := now;
              Job.last_error := Job.last_error job;
              Job.output := Job.output job |}, w') ∧
    now ≠ "" ∧ jobs_json w' = jobs_json w ∧ config_json w' = config_json w ∧
    oracle w' = oracle w ∧ sleep_log w' = sleep_log w ∧ runs w' = runs w.
Proof.
  eexists _, _. split; [reflexivity|].
  split; [|done].
  cbn. destruct (utcnow_isoformat _ _); discriminate.
Qed.

Lemma init_wf command job_id state attempts max_retries
    created_at updated_at last_error output w :
  ∃ job w',
    Job.__init__ command job_id state attempts max_retries
                 created_at updated_at last_error output w = (inr job, w') ∧
    Job_wf job ∧ Job.command job = command ∧ Job.state job = state ∧
    Job.attempts job = attempts ∧ Job.max_retries job = max_retries ∧
    Job.last_error job = last_error ∧ Job.output job = output ∧
    Job.id job = (if truthy_opt job_id then default "" job_id
                  else str_uuid (uuid4_hex (oracle w) (draws w))) ∧
    jobs_json w' = jobs_json w ∧ config_json w' = config_json w.
Proof.
  unfold Job.__init__, or_else, Job_wf, truthy_opt.
  destruct job_id as [i|], created_at as [c|], updated_at as [u|];
    try destruct (truthy i) eqn:Hi; try destruct (truthy c) eqn:Hc;
    try destruct (truthy u) eqn:Hu; run_st; eexists _, _;
    (split; [reflexivity|]); cbn;
    repeat match goal with
           | H : truthy _ = true |- _ => apply truthy_true_ne in H
           end;
    repeat split; try done; try apply str_uuid_ne;
    by destruct (utcnow_isoformat _ _).
Qed.

(** *** The failure handler *)

(** Everything [_handle_job_failure] does to the job object and the world. *)
Lemma handle_job_failure_spec error job w :
  ∃ base r job' w',
    Config.get "backoff_base" w = (inr (Some base), w) ∧
    Worker._handle_job_failure error (job, w) = (r, (job', w')) ∧
    Job.id job' = Job.id job ∧ Job.command job' = Job.command job ∧
    Job.max_retries job' = Job.max_retries job ∧
    Job.created_at job' = Job.created_at job ∧
    Job.updated_at job' ≠ "" ∧
    Job.output job' = Job.output job ∧
    Job.attempts job' = (Job.attempts job + 1)%N ∧
    Job.last_error job' =
      (if truthy error then Some error else Job.last_error job) ∧
    jobs_json w' = jobs_json w ∧ config_json w' = config_json w ∧
    oracle w' = oracle w ∧ runs w' = runs w ∧
    let delay := base ^ Z.of_N (Job.attempts job + 1) in
    if bool_decide (Z.of_N (Job.attempts job + 1) < Job.max_retries job) then
      sleep_log w' = sleep_log w ++ [delay] ∧
      match sleep_raises (oracle w) (length (sleep_log w)) delay with
      | None => r = inr tt ∧ Job.state job' = "pending"
      | Some msg => r = inl (Raised msg) ∧ Job.state job' = "failed"
      end
    else
      r = inr tt ∧ Job.state job' = "dead" ∧ sleep_log w' = sleep_log w.
Proof.
  pose (base := default 2 (config_json w !! "backoff_base")).
  assert (Hget : ∀ w0, config_json w0 = config_json w →
            (Config.get "backoff_base" ≫= Config.as_int "backoff_base") w0
            = (inr base, w0)).
  { intros w0 Hw0. unfold Config.get, Config._read_config, Config.as_int.
    run_st. rewrite Hw0. subst base.
    by destruct (config_json w !! "backoff_base"). }
  assert (Hbase : Config.get "backoff_base" w = (inr (Some base), w)).
  { unfold Config.get, Config._read_config. run_st. subst base.
    by destruct (config_json w !! "backoff_base"). }
  exists base. clearbody base.
  unfold Worker._handle_job_failure.
  revert Hget.
  generalize (Config.get "backoff_base" ≫= Config.as_int "backoff_base").
  intros get_base Hget.
  unfold Worker.on_job, Worker.the_job, Worker.lift, Job.increment_attempts,
    Job.update_state, utcnow_z, time_sleep, Job.should_retry,
    Job.get_backoff_delay.
  run_st.
  case_bool_decide.
  - rewrite Hget by done. cbn.
    destruct (sleep_raises _ _ _) as [msg|] eqn:Hs; cbn;
      eexists _, _, _; (split; [exact Hbase|]); (split; [reflexivity|]); cbn;
      repeat split; try done; try apply stamp_ne;
      by destruct (truthy error).
  - eexists _, _, _.
    split; [exact Hbase|]. split; [reflexivity|]. cbn.
    repeat split; try done. apply stamp_ne.
Qed.

(** What the callers of the handler rely on, whatever the branch taken. *)
Lemma handle_job_failure_frame error job w :
  ∃ r job' w',
    Worker._handle_job_failure error (job, w) = (r, (job', w')) ∧
    Job.id job' = Job.id job ∧ Job.command job' = Job.command job ∧
    Job.max_retries job' = Job.max_retries job ∧
    Job.created_at job' = Job.created_at job ∧
    Job.updated_at job' ≠ "" ∧
    Job.output job' = Job.output job ∧
    Job.attempts job' = (Job.attempts job + 1)%N ∧
    Job.last_error job' =
      (if truthy error then Some error else Job.last_error job) ∧
    jobs_json w' = jobs_json w ∧ config_json w' = config_json w ∧
    (Job.state job' = "pending" ∨ Job.state job' = "failed" ∨
     Job.state job' = "dead") ∧
    (∀ e, r = inl e → ∃ msg, e = Raised msg).
Proof.
  destruct (handle_job_failure_spec error job w)
    as (base & r & job' & w' & _ & Heq & Hid & Hcmd & Hmax & Hcr & Hup & Hout
        & Hatt & Herr & Hjobs & Hcfg & _ & _ & Hcase).
  exists r, job', w'. repeat split; try done.
  - cbn in Hcase. case_bool_decide.
    + destruct Hcase as [_ Hcase].
      destruct (sleep_raises _ _ _); destruct Hcase as [_ Hst]; auto.
    + destruct Hcase as (_ & Hst & _). auto.
  - intros e ->. cbn in Hcase. case_bool_decide.
    + destruct Hcase as [_ Hcase].
      destruct (sleep_raises _ _ _) as [msg|]; destruct Hcase as [Hr _].
      * injection Hr as ->. by exists msg.
      * discriminate.
    + by destruct Hcase as (? & _).
Qed.

#[local] Arguments Worker._handle_job_failure : simpl never.

(** *** Processing one job *)

Lemma not_completed (state : string) :
  state = "pending" ∨ state = "failed" ∨ state = "dead" →
  state ≠ "completed".
Proof. intros [-> | [-> | ->]]; discriminate. Qed.

Lemma is_Some_if_truthy (error : string) (o : option string) :
  is_Some o → is_Some (if truthy error then Some error else o).
Proof. destruct (truthy error); eauto. Qed.

(** Two handler calls in a row: the second runs when the first raised inside
    the [try] body. *)
Lemma handle_twice error job w :
  ∃ r job' w',
    (let (r1, s1) := Worker._handle_job_failure error (job, w) in
     match r1 with
     | inl e =>
         match e with
         | TimeoutExpired _ => Worker._handle_job_failure "Job timed out"
         | _ => Worker._handle_job_failure (Exn_str e)
         end s1
     | inr a => (inr a, s1)
     end) = (r, (job', w')) ∧
    Job.id job' = Job.id job ∧ Job.command job' = Job.command job ∧
    Job.max_retries job' = Job.max_retries job ∧
    Job.created_at job' = Job.created_at job ∧
    Job.updated_at job' ≠ "" ∧
    Job.output job' = Job.output job ∧
    (Job.attempts job < Job.attempts job')%N ∧
    (is_Some (Job.last_error job) → is_Some (Job.last_error job')) ∧
    jobs_json w' = jobs_json w ∧ config_json w' = config_json w ∧
    (Job.state job' = "pending" ∨ Job.state job' = "failed" ∨
     Job.state job' = "dead").
Proof.
  destruct (handle_job_failure_frame error job w)
    as (r1 & job1 & w1 & Heq1 & Hid & Hcmd & Hmax & Hcr & Hup & Hout
        & Hatt & Herr & Hjobs & Hcfg & Hst & Hexn).
  rewrite Heq1.
  destruct r1 as [e|[]].
  - destruct (Hexn e eq_refl) as [msg ->]. cbn.
    destruct (handle_job_failure_frame msg job1 w1)
      as (r2 & job2 & w2 & Heq2 & Hid2 & Hcmd2 & Hmax2 & Hcr2 & Hup2 & Hout2
          & Hatt2 & Herr2 & Hjobs2 & Hcfg2 & Hst2 & _).
    exists r2, job2, w2. rewrite Heq2.
    repeat split; try congruence; try lia.
    intros HS. rewrite Herr2. apply is_Some_if_truthy.
    rewrite Herr. by apply is_Some_if_truthy.
  - exists (inr ()), job1, w1.
    repeat split; try congruence; try lia.
    intros HS. rewrite Herr. by apply is_Some_if_truthy.
Qed.

Lemma process_job_body_spec job w :
  ∃ r job' w',
    Worker.process_job_body (job, w) = (r, (job', w')) ∧
    Job.id job' = Job.id job ∧ Job.command job' = Job.command job ∧
    Job.max_retries job' = Job.max_retries job ∧
    Job.created_at job' = Job.created_at job ∧
    Job.updated_at job' ≠ "" ∧
    (Job.attempts job ≤ Job.attempts job')%N ∧
    (is_Some (Job.last_error job) → is_Some (Job.last_error job')) ∧
    jobs_json w' =
      Storage.dict_set (jobs_json w) (Job.id job) (Job.to_dict job') ∧
    config_json w' = config_json w ∧
    match subprocess_run (oracle w) (runs w) (Job.command job) with
    | RunReturned result =>
        if decide (returncode result = 0) then
          r = inr tt ∧ Job.state job' = "completed" ∧
          Job.attempts job' = Job.attempts job ∧
          Job.last_error job' = Job.last_error job ∧
          Job.output job' =
            (if truthy (stdout result) then Some (stdout result)
             else Job.output job) ∧
          sleep_log w' = sleep_log w
        else
          Job.state job' ≠ "completed" ∧ Job.output job' = Job.output job
    | _ => Job.state job' ≠ "completed" ∧ Job.output job' = Job.output job
    end.
Proof.
  unfold Worker.process_job_body, try_finally, try_except.
  unfold Worker.the_job, Worker.lift, Worker.on_job, run_subprocess,
    Storage.save_job, Storage._read_jobs, Storage._write_jobs.
  run_st.
  destruct (subprocess_run _ _ _) as [res| |msg] eqn:Hrun; cbn.
  - case_decide; cbn.
    + eexists _, _, _. split; [reflexivity|]. cbn.
      repeat split; try done; try lia. apply stamp_ne.
    + match goal with
      | |- context [Worker._handle_job_failure ?e (job, ?w1)] =>
          destruct (handle_twice e job w1)
            as (r & job' & w' & Heq & Hid & Hcmd & Hmax & Hcr & Hup & Hout
                & Hatt & Herr & Hjobs & Hcfg & Hst)
      end.
      rewrite Heq. cbn. eexists _, _, _. split; [reflexivity|]. cbn.
      rewrite Hjobs, Hid. cbn.
      repeat split; try done; try lia. by apply not_completed.
  - destruct (handle_job_failure_frame "Job timed out" job
               {| oracle := oracle w; draws := draws w; ticks := ticks w;
                  runs := S (runs w); sleep_log := sleep_log w;
                  jobs_json := jobs_json w; config_json := config_json w |})
      as (r & job' & w' & Heq & Hid & Hcmd & Hmax & Hcr & Hup & Hout
          & Hatt & Herr & Hjobs & Hcfg & Hst & _).
    rewrite Heq. cbn. eexists _, _, _. split; [reflexivity|]. cbn.
    rewrite Hjobs, Hid. cbn.
    repeat split; try done; try lia; [|by apply not_completed].
    intros HS. rewrite Herr. by apply is_Some_if_truthy.
  - destruct (handle_job_failure_frame msg job
               {| oracle := oracle w; draws := draws w; ticks := ticks w;
                  runs := S (runs w); sleep_log := sleep_log w;
                  jobs_json := jobs_json w; config_json := config_json w |})
      as (r & job' & w' & Heq & Hid & Hcmd & Hmax & Hcr & Hup & Hout
          & Hatt & Herr & Hjobs & Hcfg & Hst & _).
    rewrite Heq. cbn. eexists _, _, _. split; [reflexivity|]. cbn.
    rewrite Hjobs, Hid. cbn.
    repeat split; try done; try lia; [|by apply not_completed].
    intros HS. rewrite Herr. by apply is_Some_if_truthy.
Qed.

(** *** The jobs dictionary *)

Lemma dict_get_set_eq jobs k v :
  Storage.dict_get (Storage.dict_set jobs k v) k = Some v.
Proof.
  induction jobs as [|[k' v'] jobs IH]; cbn.
  - by rewrite decide_True.
  - destruct (decide (k' = k)) as [->|Hne]; cbn.
    + by rewrite decide_True.
    + by rewrite decide_False.
Qed.

Lemma dict_get_set_ne jobs k k' v :
  k ≠ k' → Storage.dict_get (Storage.dict_set jobs k v) k' = Storage.dict_get jobs k'.
Proof.
  intros Hne. induction jobs as [|[k0 v0] jobs IH]; cbn.
  - by rewrite decide_False.
  - destruct (decide (k0 = k)) as [->|Hne0]; cbn.
    + by rewrite !decide_False.
    + by rewrite IH.
Qed.

Lemma dict_set_set jobs k v v' :
  Storage.dict_set (Storage.dict_set jobs k v) k v' = Storage.dict_set jobs k v'.
Proof.
  induction jobs as [|[k0 v0] jobs IH]; cbn.
  - by rewrite decide_True.
  - destruct (decide (k0 = k)) as [->|Hne0]; cbn.
    + by rewrite decide_True.
    + by rewrite decide_False, IH.
Qed.

Lemma dict_set_keys jobs k v :
  (Storage.dict_set jobs k v).*1 =
    if decide (k ∈ jobs.*1) then jobs.*1 else jobs.*1 ++ [k].
Proof.
  induction jobs as [|[k0 v0] jobs IH]; cbn.
  - rewrite decide_False; [done|]. apply not_elem_of_nil.
  - destruct (decide (k0 = k)) as [->|Hne0]; cbn.
    + rewrite decide_True; [done|]. apply elem_of_cons. by left.
    + rewrite IH. destruct (decide (k ∈ jobs.*1)) as [Hin|Hnin].
      * rewrite decide_True; [done|]. apply elem_of_cons. by right.
      * rewrite decide_False; [done|].
        intros [?|?]%elem_of_cons; congruence.
Qed.

Lemma dict_set_elem jobs k v entry :
  entry ∈ Storage.dict_set jobs k v → entry = (k, v) ∨ entry ∈ jobs.
Proof.
  induction jobs as [|[k0 v0] jobs IH]; cbn.
  - intros ->%list_elem_of_singleton. by left.
  - destruct (decide (k0 = k)) as [->|Hne0].
    + intros [->|Hin]%elem_of_cons; [by left|].
      right. apply elem_of_cons. by right.
    + intros [->|Hin]%elem_of_cons.
      * right. apply elem_of_cons. by left.
      * destruct (IH Hin) as [->|Hin']; [by left|].
        right. apply elem_of_cons. by right.
Qed.

Lemma dict_get_elem jobs k v :
  NoDup jobs.*1 → (k, v) ∈ jobs → Storage.dict_get jobs k = Some v.
Proof.
  induction jobs as [|[k0 v0] jobs IH]; cbn.
  - intros _ Hin. by apply elem_of_nil in Hin.
  - intros [Hnin Hnd]%NoDup_cons [Heq|Hin]%elem_of_cons.
    + injection Heq as -> ->. by rewrite decide_True.
    + destruct (decide (k0 = k)) as [->|Hne].
      * exfalso. apply Hnin. apply list_elem_of_fmap. by exists (k, v).
      * by apply IH.
Qed.

Lemma dict_get_Some_elem jobs k v :
  Storage.dict_get jobs k = Some v → (k, v) ∈ jobs.
Proof.
  induction jobs as [|[k0 v0] jobs IH]; cbn; [done|].
  destruct (decide (k0 = k)) as [->|Hne].
  - intros [= ->]. apply elem_of_cons. by left.
  - intros H. apply elem_of_cons. right. by apply IH.
Qed.

(** Saving a job object keeps the file well formed. *)
Lemma jobs_wf_set jobs j :
  jobs_wf jobs → Job_wf j →
  jobs_wf (Storage.dict_set jobs (Job.id j) (Job.to_dict j)).
Proof.
  intros [Hnd Hall] Hj. split.
  - rewrite dict_set_keys. case_decide; [done|].
    apply NoDup_app. split; [done|]. split.
    + intros x Hx ->%list_elem_of_singleton. done.
    + apply NoDup_singleton.
  - apply Forall_forall. intros entry [->|Hin]%dict_set_elem.
    + by exists j.
    + rewrite Forall_forall in Hall. by apply Hall.
Qed.

Lemma jobs_wf_stored jobs k d :
  jobs_wf jobs → Storage.dict_get jobs k = Some d →
  ∃ j, Job_wf j ∧ Job.id j = k ∧ d = Job.to_dict j.
Proof.
  intros [_ Hall] Hget%dict_get_Some_elem.
  rewrite Forall_forall in Hall.
  destruct (Hall _ Hget) as (j & Hj & [= -> ->]). eauto.
Qed.

Lemma jobs_wf_nil : jobs_wf [].
Proof. split; [apply NoDup_nil_2 | apply Forall_nil_2]. Qed.

Lemma stored_inj jobs job_id j1 j2 :
  stored jobs job_id j1 → stored jobs job_id j2 → j1 = j2.
Proof.
  unfold stored. intros H1 H2. rewrite H1 in H2.
  apply to_dict_inj. by apply (inj Some).
Qed.

(** A well-formed file is the list of the dictionaries of job objects. *)
Lemma jobs_wf_objects jobs :
  jobs_wf jobs →
  ∃ js, jobs = (λ j, (Job.id j, Job.to_dict j)) <$> js ∧ Forall Job_wf js.
Proof.
  intros [_ Hall]. induction Hall as [|entry jobs (j & Hj & ->) _ (js & -> & Hjs)].
  - by exists [].
  - exists (j :: js). split; [done|]. by constructor.
Qed.

Lemma dict_values_objects js :
  Storage.dict_values ((λ j, (Job.id j, Job.to_dict j)) <$> js) = Job.to_dict <$> js.
Proof. unfold Storage.dict_values. by rewrite <- list_fmap_compose. Qed.

Lemma from_dicts_in_state_objects state js w :
  Forall Job_wf js →
  Storage.from_dicts_in_state state (Job.to_dict <$> js) w =
    (inr (filter (λ j, Job.state j = JobState_value state) js), w).
Proof.
  induction 1 as [|j js Hj _ IH]; [done|].
  cbn [fmap list_fmap Storage.from_dicts_in_state].
  unfold Job.subscript.
  destruct (to_dict_lookups j) as (_ & _ & -> & _).
  unfold mbind at 1. unfold ST_bind, mret at 1, ST_ret.
  destruct (decide (VStr (Job.state j) = VStr (JobState_value state)))
    as [Heq|Hne].
  - injection Heq as Heq.
    rewrite filter_cons_True by done.
    unfold mbind, ST_bind. rewrite from_dict_to_dict by done.
    fold (list_fmap _ _ Job.to_dict js). rewrite IH. done.
  - rewrite filter_cons_False by congruence.
    fold (list_fmap _ _ Job.to_dict js). by rewrite IH.
Qed.

Lemma get_jobs_by_state_objects state js w :
  Forall Job_wf js →
  jobs_json w = (λ j, (Job.id j, Job.to_dict j)) <$> js →
  Storage.get_jobs_by_state state w =
    (inr (filter (λ j, Job.state j = JobState_value state) js), w).
Proof.
  intros Hjs Hw. unfold Storage.get_jobs_by_state, Storage._read_jobs.
  unfold mbind, ST_bind. rewrite Hw, dict_values_objects.
  by apply from_dicts_in_state_objects.
Qed.

Lemma first_to_retry_spec failed_jobs w :
  ∃ r, Worker.first_to_retry failed_jobs w = (inr r, w) ∧
       ∀ job, r = Some job → job ∈ failed_jobs.
Proof.
  induction failed_jobs as [|job rest (r & Heq & Hin)]; cbn.
  - exists None. split; [done|]. intros ? [=].
  - destruct (Job.should_retry job).
    + exists (Some job). split.
      * unfold Config.get, Config._read_config, Config.as_int. run_st.
        by destruct (config_json w !! "backoff_base").
      * intros ? [= <-]. apply elem_of_cons. by left.
    + exists r. split; [done|].
      intros j Hj. apply elem_of_cons. right. by apply Hin.
Qed.

Lemma objects_stored js jobs j :
  jobs = (λ j, (Job.id j, Job.to_dict j)) <$> js → NoDup jobs.*1 →
  j ∈ js → stored jobs (Job.id j) j.
Proof.
  intros -> Hnd Hin. apply dict_get_elem; [done|].
  apply list_elem_of_fmap. by exists j.
Qed.

(** *** Claiming a job *)

Lemma get_next_job_spec w :
  jobs_wf (jobs_json w) →
  ∃ r w',
    Worker._get_next_job w = (inr r, w') ∧ config_json w' = config_json w ∧
    match r with
    | None => jobs_json w' = jobs_json w
    | Some job =>
        ∃ j0, stored (jobs_json w) (Job.id job) j0 ∧ Job_wf job ∧
          Job.attempts job = Job.attempts j0 ∧
          Job.last_error job = Job.last_error j0 ∧
          Job.output job = Job.output j0 ∧
          ((Job.state j0 = "pending" ∧ Job.state job = "processing" ∧
            jobs_json w' =
              Storage.dict_set (jobs_json w) (Job.id job) (Job.to_dict job))
           ∨ (Job.state j0 = "failed" ∧ job = j0 ∧
              jobs_json w' = jobs_json w))
    end.
Proof.
  intros Hwf. destruct (jobs_wf_objects _ Hwf) as (js & Hjobs & Hjs).
  destruct Hwf as [Hnd _].
  assert (Hall : ∀ j, j ∈ js → Job_wf j).
  { by apply Forall_forall. }
  unfold Worker._get_next_job. unfold mbind at 1. unfold ST_bind.
  rewrite (get_jobs_by_state_objects PENDING js) by done.
  destruct (filter _ js) as [|j rest] eqn:Hpending.
  - unfold mbind, ST_bind.
    rewrite (get_jobs_by_state_objects FAILED js) by done.
    destruct (first_to_retry_spec
                (filter (λ j, Job.state j = JobState_value FAILED) js) w)
      as (r & -> & Hin).
    exists r, w. split; [done|]. split; [done|].
    destruct r as [job|]; [|done].
    pose proof (Hin job eq_refl) as Hjob.
    apply list_elem_of_filter in Hjob as [Hst Hjob].
    exists job. split; [by eapply objects_stored|].
    split; [by apply Hall|]. repeat split; try done. by right.
  - assert (Hj : j ∈ filter (λ j, Job.state j = JobState_value PENDING) js).
    { rewrite Hpending. apply elem_of_cons. by left. }
    apply list_elem_of_filter in Hj as [Hst Hj].
    destruct (Hall j Hj) as (Hid & Hcr & Hup).
    unfold Job.update_state, utcnow_z, Storage.save_job, Storage._read_jobs,
      Storage._write_jobs.
    run_st. eexists _, _. split; [reflexivity|]. cbn. split; [done|].
    exists j. split; [by eapply objects_stored|].
    split; [repeat split; try done; apply stamp_ne|].
    repeat split; try done. by left.
Qed.

(** *** One turn of the worker loop *)

Lemma config_get_poll_interval w :
  ∃ interval,
    (Config.get "worker_poll_interval" ≫= Config.as_int "worker_poll_interval")
      w = (inr interval, w).
Proof.
  unfold Config.get, Config._read_config, Config.as_int. run_st.
  destruct (config_json w !! "worker_poll_interval"); eauto.
Qed.

Lemma time_sleep_frame d w :
  ∃ r w', time_sleep d w = (r, w') ∧ jobs_json w' = jobs_json w ∧
          config_json w' = config_json w.
Proof.
  unfold time_sleep. destruct (sleep_raises _ _ _); eexists _, _; eauto.
Qed.

Lemma start_loop_body_spec w :
  jobs_wf (jobs_json w) →
  ∃ r w',
    Worker.start_loop_body w = (r, w') ∧ config_json w' = config_json w ∧
    (jobs_json w' = jobs_json w ∨
     ∃ j0 job',
       stored (jobs_json w) (Job.id j0) j0 ∧ Job_wf job' ∧
       Job.id job' = Job.id j0 ∧
       (Job.attempts j0 ≤ Job.attempts job')%N ∧
       (is_Some (Job.last_error j0) → is_Some (Job.last_error job')) ∧
       jobs_json w' =
         Storage.dict_set (jobs_json w) (Job.id j0) (Job.to_dict job')).
Proof.
  intros Hwf.
  destruct (get_next_job_spec w Hwf) as (next & w1 & Hnext & Hcfg1 & Hcase).
  unfold Worker.start_loop_body. unfold mbind at 1. unfold ST_bind.
  rewrite Hnext. destruct next as [job|].
  - destruct Hcase as (j0 & Hstored & Hjob & Hatt & Herr & Hout & Hpath).
    destruct (process_job_body_spec job w1)
      as (r & job' & w' & Heq & Hid & Hcmd & Hmax & Hcr & Hup & Hatt'
          & Herr' & Hjobs & Hcfg & _).
    unfold Worker._process_job. rewrite Heq.
    exists r, w'. split; [done|]. split; [congruence|]. right.
    assert (Hid0 : Job.id job = Job.id j0).
    { destruct Hpath as [(_ & _ & _)|(_ & -> & _)]; [|done].
      destruct (jobs_wf_stored _ _ _ Hwf Hstored) as (j & _ & Hidj & Hd).
      apply to_dict_inj in Hd. congruence. }
    exists j0, job'. rewrite <- Hid0. split; [done|].
    split. { destruct Hjob as (? & ? & ?). repeat split; congruence. }
    split; [congruence|]. split; [lia|]. split; [by rewrite <- Herr|].
    rewrite Hjobs.
    destruct Hpath as [(_ & _ & ->)|(_ & _ & ->)]; [|done].
    by rewrite dict_set_set.
  - destruct (config_get_poll_interval w1) as [interval Hget].
    rewrite (bind_returns _ _ _ _ _ Hget).
    destruct (time_sleep_frame interval w1) as (r & w' & -> & Hjobs & Hcfg).
    exists r, w'. split; [done|]. split; [congruence|]. left. congruence.
Qed.

(** *** The facade *)

Lemma get_job_stored w job_id j :
  Job_wf j → stored (jobs_json w) job_id j →
  Storage.get_job job_id w = (inr (Some j), w).
Proof.
  intros Hj Hst. unfold Storage.get_job, Storage._read_jobs. run_st.
  rewrite Hst. rewrite decide_False by apply to_dict_ne_empty.
  by rewrite from_dict_to_dict.
Qed.

Lemma get_job_missing w job_id :
  Storage.dict_get (jobs_json w) job_id = None →
  Storage.get_job job_id w = (inr None, w).
Proof.
  intros Hst. unfold Storage.get_job, Storage._read_jobs. run_st.
  by rewrite Hst.
Qed.

(** The three ways [retry_job] can go on a well-formed file. *)
Lemma retry_job_cases w job_id :
  jobs_wf (jobs_json w) →
  (Storage.dict_get (jobs_json w) job_id = None ∧
   QueueManager.retry_job job_id w = (inr false, w))
  ∨ (∃ j, stored (jobs_json w) job_id j ∧ Job_wf j ∧ Job.id j = job_id ∧
          Job.state j ≠ "dead" ∧
          QueueManager.retry_job job_id w = (inr false, w))
  ∨ (∃ j now w',
       stored (jobs_json w) job_id j ∧ Job_wf j ∧ Job.id j = job_id ∧
       Job.state j = "dead" ∧ now ≠ "" ∧
       QueueManager.retry_job job_id w = (inr true, w') ∧
       config_json w' = config_json w ∧
       jobs_json w' =
         Storage.dict_set (jobs_json w) job_id
           (Job.to_dict
              {| Job.id := Job.id j; Job.command := Job.command j;
                 Job.state := "pending"; Job.attempts := 0;
                 Job.max_retries := Job.max_retries j;
                 Job.created_at := Job.created_at j; Job.updated_at := now;
                 Job.last_error := Job.last_error j;
                 Job.output := Job.output j |})).
Proof.
  intros Hwf.
  destruct (Storage.dict_get (jobs_json w) job_id) as [d|] eqn:Hget.
  - right. destruct (jobs_wf_stored _ _ _ Hwf Hget) as (j & Hj & Hid & ->).
    unfold QueueManager.retry_job.
    rewrite (bind_returns _ _ _ _ _ (get_job_stored w job_id j Hj Hget)).
    destruct (decide (Job.state j ≠ JobState_value DEAD)) as [Hne|Hdead].
    + left. by exists j.
    + right. apply dec_stable in Hdead.
      unfold Job.update_state, Job.set_attempts, utcnow_z, Storage.save_job,
        Storage._read_jobs, Storage._write_jobs.
      run_st. subst job_id. pose proof Hj as (? & ? & ?).
      exists j, (utcnow_isoformat (oracle w) (ticks w) +:+ "Z").
      eexists. repeat split; try done. apply stamp_ne.
  - left. split; [done|]. unfold QueueManager.retry_job.
    by rewrite (bind_returns _ _ _ _ _ (get_job_missing w job_id Hget)).
Qed.

Lemma config_get_max_retries w :
  ∃ dflt, Config.get "max_retries" w = (inr (Some dflt), w) ∧
          (Config.get "max_retries" ≫= Config.as_int "max_retries") w
            = (inr dflt, w).
Proof.
  unfold Config.get, Config._read_config, Config.as_int. run_st.
  destruct (config_json w !! "max_retries"); eauto.
Qed.

Lemma save_job_returns job w :
  ∃ w', Storage.save_job job w = (inr tt, w') ∧
        jobs_json w' =
          Storage.dict_set (jobs_json w) (Job.id job) (Job.to_dict job) ∧
        config_json w' = config_json w.
Proof. eexists. split; [reflexivity|]. done. Qed.

Lemma enqueue_frame command job_id max_retries w :
  ∃ job w',
    QueueManager.enqueue command job_id max_retries w = (inr job, w') ∧
    Job_wf job ∧
    jobs_json w' =
      Storage.dict_set (jobs_json w) (Job.id job) (Job.to_dict job).
Proof.
  destruct (config_get_max_retries w) as (dflt & Hget & Hint).
  set (m := default dflt max_retries).
  destruct (init_wf command job_id "pending" 0 m None None None None w)
    as (job & w1 & Hinit & Hwf & _ & _ & _ & _ & _ & _ & _ & Hjobs1 & _).
  destruct (save_job_returns job w1) as (w' & Hsave & Hjobs & _).
  exists job, w'. split; [|split; [done | by rewrite Hjobs, Hjobs1]].
  unfold QueueManager.enqueue.
  assert (Hm : (match max_retries with
                | Some m0 => mret m0
                | None => Config.get "max_retries"
                            ≫= Config.as_int "max_retries"
                end) w = (inr m, w)).
  { subst m. by destruct max_retries. }
  rewrite (bind_returns _ _ _ _ _ Hm).
  change (JobState_value PENDING) with "pending".
  rewrite (bind_returns _ _ _ _ _ Hinit).
  by rewrite (bind_returns _ _ _ _ _ Hsave).
Qed.

(** *** The file stays well formed *)

(** [jobs_wf] holds of the empty file and is kept by every operation of the
    facade and by every turn of the worker loop, whatever they return. *)
Lemma jobs_wf_is_invariant :
  jobs_wf [] ∧
  (∀ command job_id max_retries w r w',
     jobs_wf (jobs_json w) →
     QueueManager.enqueue command job_id max_retries w = (r, w') →
     jobs_wf (jobs_json w')) ∧
  (∀ job_id w r w',
     jobs_wf (jobs_json w) → QueueManager.retry_job job_id w = (r, w') →
     jobs_wf (jobs_json w')) ∧
  (∀ w r w',
     jobs_wf (jobs_json w) → Worker.start_loop_body w = (r, w') →
     jobs_wf (jobs_json w')).
Proof.
  split; [apply jobs_wf_nil|]. split; [|split].
  - intros command job_id max_retries w r w' Hwf Hrun.
    destruct (enqueue_frame command job_id max_retries w)
      as (job & w0 & Heq & Hjob & Hjobs).
    rewrite Hrun in Heq. injection Heq as -> ->.
    rewrite Hjobs. by apply jobs_wf_set.
  - intros job_id w r w' Hwf Hrun.
    destruct (retry_job_cases w job_id Hwf)
      as [(_ & Heq) | [(j & _ & _ & _ & _ & Heq)
                      | (j & now & w0 & _ & Hj & Hid & _ & Hnow & Heq & _
                         & Hjobs)]];
      rewrite Hrun in Heq; injection Heq as -> ->; try done.
    rewrite Hjobs, <- Hid.
    apply (jobs_wf_set _
             {| Job.id := Job.id j; Job.command := Job.command j;
                Job.state := "pending"; Job.attempts := 0;
                Job.max_retries := Job.max_retries j;
                Job.created_at := Job.created_at j; Job.updated_at := now;
                Job.last_error := Job.last_error j;
                Job.output := Job.output j |}); [done|].
    destruct Hj as (? & ? & ?). by repeat split.
  - intros w r w' Hwf Hrun.
    destruct (start_loop_body_spec w Hwf)
      as (r0 & w0 & Heq & _ & [Hsame | (j0 & job' & _ & Hjob & Hid & _ & _
                                         & Hjobs)]);
      rewrite Hrun in Heq; injection Heq as <- <-.
    + by rewrite Hsame.
    + rewrite Hjobs, <- Hid. by apply jobs_wf_set.
Qed.

(** What [enqueue] returns and writes, field by field. *)
Lemma enqueue_spec command job_id max_retries w :
  ∃ job w' dflt,
    QueueManager.enqueue command job_id max_retries w = (inr job, w') ∧
    Config.get "max_retries" w = (inr (Some dflt), w) ∧
    Job.max_retries job = default dflt max_retries ∧
    Job_wf job ∧ Job.command job = command ∧ Job.state job = "pending" ∧
    Job.attempts job = 0%N ∧ Job.last_error job = None ∧
    Job.output job = None ∧
    Job.id job = (if truthy_opt job_id then default "" job_id
                  else str_uuid (uuid4_hex (oracle w) (draws w))) ∧
    jobs_json w' =
      Storage.dict_set (jobs_json w) (Job.id job) (Job.to_dict job) ∧
    config_json w' = config_json w.
Proof.
  destruct (config_get_max_retries w) as (dflt & Hget & Hint).
  set (m := default dflt max_retries).
  destruct (init_wf command job_id "pending" 0 m None None None None w)
    as (job & w1 & Hinit & Hwf & Hcmd & Hst & Hatt & Hmax & Herr & Hout & Hid
        & Hjobs1 & Hcfg1).
  destruct (save_job_returns job w1) as (w' & Hsave & Hjobs & Hcfg).
  exists job, w', dflt. split.
  { unfold QueueManager.enqueue.
    assert (Hm : (match max_retries with
                  | Some m0 => mret m0
                  | None => Config.get "max_retries"
                              ≫= Config.as_int "max_retries"
                  end) w = (inr m, w)).
    { subst m. by destruct max_retries. }
    rewrite (bind_returns _ _ _ _ _ Hm).
    change (JobState_value PENDING) with "pending".
    rewrite (bind_returns _ _ _ _ _ Hinit).
    by rewrite (bind_returns _ _ _ _ _ Hsave). }
  repeat split; try done; try apply Hwf.
  - by rewrite Hjobs, Hjobs1.
  - by rewrite Hcfg, Hcfg1.
Qed.

(** * The claims *)

(** ** C1: the retry decision *)

(** C1.  When a job fails an execution attempt, [_handle_job_failure] first
    increments [attempts] and then compares strictly: if the incremented
    count is below [max_retries] the job is retried (state [failed], one
    backoff sleep, then state [pending] when the sleep returns); otherwise
    the handler returns with the job in state [dead], the error recorded in
    [last_error] (a non-empty error always is), and no sleep.  In particular
    a job with [max_retries = 1] is dead after its first failure. *)
Theorem failure_retries_below_max_else_dead error job w :
  let n := (Job.attempts job + 1)%N in
  ∃ base r job' w',
    returns (Config.get "backoff_base") w (Some base) w ∧
    Worker._handle_job_failure error (job, w) = (r, (job', w')) ∧
    Job.attempts job' = n ∧
    (if bool_decide (Z.of_N n < Job.max_retries job) then
       sleep_log w' = sleep_log w ++ [base ^ Z.of_N n] ∧
       match sleep_raises (oracle w) (length (sleep_log w)) (base ^ Z.of_N n) with
       | None => r = inr tt ∧ Job.state job' = "pending"
       | Some msg => r = inl (Raised msg) ∧ Job.state job' = "failed"
       end
     else
       r = inr tt ∧ Job.state job' = "dead" ∧ sleep_log w' = sleep_log w ∧
       Job.last_error job' =
         (if truthy error then Some error else Job.last_error job) ∧
       (error ≠ "" → Job.last_error job' = Some error)) ∧
    (Job.max_retries job = 1 → Job.attempts job = 0%N →
     r = inr tt ∧ Job.state job' = "dead" ∧ sleep_log w' = sleep_log w).
Proof.
  intros n.
  destruct (handle_job_failure_spec error job w)
    as (base & r & job' & w' & Hbase & Heq & _ & _ & _ & _ & _ & _ & Hatt
        & Herr & _ & _ & _ & _ & Hcase).
  exists base, r, job', w'. cbn in Hcase. fold n in Hcase.
  split; [done|]. split; [done|]. split; [done|]. split.
  - case_bool_decide; [done|].
    destruct Hcase as (-> & Hst & Hlog). repeat split; try done.
    intros Hne. by rewrite Herr, truthy_ne.
  - intros Hmax Hzero. subst n. rewrite Hmax, Hzero in Hcase.
    by rewrite bool_decide_false in Hcase by lia.
Qed.

Lemma failure_retries_below_max_else_dead_witness :
  ∃ r job' w',
    Worker._handle_job_failure "Command exited with code 1"
      (sample_job "job-9" "exit 1" "processing" 0 1 None None,
       sample_world [] ∅) = (r, (job', w')) ∧
    r = inr tt ∧ Job.state job' = "dead" ∧ Job.attempts job' = 1%N ∧
    sleep_log w' = [].
Proof.
  destruct (failure_retries_below_max_else_dead "Command exited with code 1"
              (sample_job "job-9" "exit 1" "processing" 0 1 None None)
              (sample_world [] ∅))
    as (base & r & job' & w' & _ & Heq & Hatt & _ & Hone).
  exists r, job', w'.
  destruct (Hone eq_refl eq_refl) as (Hr & Hst & Hlog).
  repeat split; assumption.
Defined.

(** ** C2: the backoff delay *)

(** C2.  On a retryable failure (incremented attempts below [max_retries])
    the delay handed to [time.sleep] is [backoff_base] raised to the
    incremented attempts count, as an exact integer power; the job returns
    to [pending] when the sleep returns. *)
Theorem backoff_delay_is_base_power error job w base :
  returns (Config.get "backoff_base") w (Some base) w →
  Z.of_N (Job.attempts job + 1) < Job.max_retries job →
  ∃ r job' w',
    Worker._handle_job_failure error (job, w) = (r, (job', w')) ∧
    Job.attempts job' = (Job.attempts job + 1)%N ∧
    Job.get_backoff_delay job' base = base ^ Z.of_N (Job.attempts job + 1) ∧
    sleep_log w' = sleep_log w ++ [base ^ Z.of_N (Job.attempts job + 1)] ∧
    (r = inr tt → Job.state job' = "pending").
Proof.
  intros Hget Hlt.
  destruct (handle_job_failure_spec error job w)
    as (base' & r & job' & w' & Hbase & Heq & _ & _ & _ & _ & _ & _ & Hatt
        & _ & _ & _ & _ & _ & Hcase).
  unfold returns in Hget. rewrite Hget in Hbase. injection Hbase as <-.
  exists r, job', w'. cbn in Hcase.
  rewrite bool_decide_true in Hcase by done.
  destruct Hcase as [Hlog Hsleep].
  repeat split; try done.
  - unfold Job.get_backoff_delay. by rewrite Hatt.
  - intros ->. destruct (sleep_raises _ _ _); by destruct Hsleep.
Qed.

Lemma backoff_delay_is_base_power_witness :
  (∃ r job' w',
     Worker._handle_job_failure "boom"
       (sample_job "job-9" "exit 1" "processing" 0 5 None None,
        sample_world [] ∅) = (r, (job', w')) ∧
     sleep_log w' = [2]) ∧
  (∃ r job' w',
     Worker._handle_job_failure "boom"
       (sample_job "job-9" "exit 1" "processing" 2 5 None None,
        sample_world [] ∅) = (r, (job', w')) ∧
     sleep_log w' = [8]).
Proof.
  assert (Hbase : returns (Config.get "backoff_base") (sample_world [] ∅)
                    (Some 2) (sample_world [] ∅)).
  { vm_compute. reflexivity. }
  split.
  - destruct (backoff_delay_is_base_power "boom"
                (sample_job "job-9" "exit 1" "processing" 0 5 None None)
                (sample_world [] ∅) 2 Hbase)
      as (r & job' & w' & Heq & _ & _ & Hlog & _).
    + vm_compute. reflexivity.
    + exists r, job', w'. split; [exact Heq | exact Hlog].
  - destruct (backoff_delay_is_base_power "boom"
                (sample_job "job-9" "exit 1" "processing" 2 5 None None)
                (sample_world [] ∅) 2 Hbase)
      as (r & job' & w' & Heq & _ & _ & Hlog & _).
    + vm_compute. reflexivity.
    + exists r, job', w'. split; [exact Heq | exact Hlog].
Defined.

(** ** C3: manual retry of a dead job *)

(** C3.  On a well-formed jobs file, [retry_job(id)] returns [True] exactly
    when a job is filed under [id] and its state is [dead].  When it returns
    [True], the job filed under [id] afterwards is the same job with
    [attempts] 0 and state [pending] (only [updated_at] changes besides), it
    is what [get_job] reads back, and every other entry is untouched; when it
    returns [False] nothing changes at all.  Hence a second call on the same
    job returns [False]. *)
Theorem retry_job_succeeds_iff_dead w job_id :
  jobs_wf (jobs_json w) →
  ∃ ok w',
    returns (QueueManager.retry_job job_id) w ok w' ∧
    (ok = true ↔
       ∃ j, stored (jobs_json w) job_id j ∧ Job.state j = "dead") ∧
    (ok = true →
       ∃ j j',
         stored (jobs_json w) job_id j ∧ stored (jobs_json w') job_id j' ∧
         returns (Storage.get_job job_id) w' (Some j') w' ∧
         Job.attempts j' = 0%N ∧ Job.state j' = "pending" ∧
         Job.id j' = Job.id j ∧ Job.command j' = Job.command j ∧
         Job.max_retries j' = Job.max_retries j ∧
         Job.created_at j' = Job.created_at j ∧
         Job.last_error j' = Job.last_error j ∧
         Job.output j' = Job.output j ∧
         (∀ other, other ≠ job_id →
            Storage.dict_get (jobs_json w') other =
              Storage.dict_get (jobs_json w) other) ∧
         ∃ w'', returns (QueueManager.retry_job job_id) w' false w'') ∧
    (ok = false → w' = w).
Proof.
  intros Hwf.
  destruct (retry_job_cases w job_id Hwf)
    as [(Hnone & Heq) | [(j & Hst & Hj & Hid & Hstate & Heq)
                        | (j & now & w' & Hst & Hj & Hid & Hstate & Hnow & Heq
                           & Hcfg & Hjobs)]].
  - exists false, w. split; [done|]. split; [|done]. split; [done|].
    intros (j & Hst & _). unfold stored in Hst. congruence.
  - exists false, w. split; [done|]. split; [|done]. split; [done|].
    intros (j' & Hst' & Hdead).
    rewrite (stored_inj _ _ _ _ Hst Hst') in Hstate. done.
  - exists true, w'. split; [done|]. split; [|split; [|done]].
    + split; [|done]. intros _. by exists j.
    + intros _.
      set (j' := {| Job.id := Job.id j; Job.command := Job.command j;
                    Job.state := "pending"; Job.attempts := 0;
                    Job.max_retries := Job.max_retries j;
                    Job.created_at := Job.created_at j;
                    Job.updated_at := now;
                    Job.last_error := Job.last_error j;
                    Job.output := Job.output j |}) in *.
      assert (Hj' : Job_wf j').
      { destruct Hj as (? & ? & ?). by repeat split. }
      assert (Hst' : stored (jobs_json w') job_id j').
      { unfold stored. rewrite Hjobs. apply dict_get_set_eq. }
      assert (Hwf' : jobs_wf (jobs_json w')).
      { rewrite Hjobs. rewrite <- Hid.
        change (Job.id j) with (Job.id j'). by apply jobs_wf_set. }
      exists j, j'. repeat split; try done.
      * by apply get_job_stored.
      * intros other Hne. rewrite Hjobs. by apply dict_get_set_ne.
      * destruct (retry_job_cases w' job_id Hwf')
          as [(Hnone & Heq2) | [(j2 & _ & _ & _ & _ & Heq2)
                               | (j2 & _ & _ & Hst2 & _ & _ & Hdead & _)]].
        -- by exists w'.
        -- by exists w'.
        -- rewrite <- (stored_inj _ _ _ _ Hst' Hst2) in Hdead.
           discriminate.
Qed.

Lemma retry_job_succeeds_iff_dead_witness :
  ∃ w' w'',
    returns (QueueManager.retry_job "job-1")
            (sample_world (file_of [dead_job]) ∅) true w' ∧
    returns (QueueManager.retry_job "job-1") w' false w''.
Proof.
  assert (Hwf : jobs_wf (jobs_json (sample_world (file_of [dead_job]) ∅))).
  { split.
    - apply NoDup_singleton.
    - apply Forall_singleton. exists dead_job.
      split; [repeat split; discriminate | reflexivity]. }
  destruct (retry_job_succeeds_iff_dead _ "job-1" Hwf)
    as (ok & w' & Hret & Hiff & Htrue & _).
  assert (Hok : ok = true).
  { apply Hiff. exists dead_job. split; reflexivity. }
  subst ok.
  destruct (Htrue eq_refl) as (j & j' & _ & _ & _ & _ & _ & _ & _ & _ & _ & _
                               & _ & _ & w'' & Hagain).
  exists w', w''. split; assumption.
Defined.

(** ** C4: enqueue *)

(** C4.  For every command, [enqueue] returns a job whose state is [pending]
    and whose attempts is 0.  Its id is the supplied one, or the next
    generated identifier when none (or an empty one) is supplied; its
    [max_retries] is the supplied one, or what the configuration gives for
    [max_retries] when omitted.  The returned record is the one filed in the
    store under its id, and [get_job] reads it back. *)
Theorem enqueue_returns_persisted_pending command job_id max_retries w :
  ∃ job w' dflt,
    returns (QueueManager.enqueue command job_id max_retries) w job w' ∧
    Job.command job = command ∧
    Job.state job = "pending" ∧ Job.attempts job = 0%N ∧
    Job.id job =
      (if truthy_opt job_id then default "" job_id
       else str_uuid (uuid4_hex (oracle w) (draws w))) ∧
    Job.id job ≠ "" ∧
    returns (Config.get "max_retries") w (Some dflt) w ∧
    Job.max_retries job = default dflt max_retries ∧
    stored (jobs_json w') (Job.id job) job ∧
    returns (Storage.get_job (Job.id job)) w' (Some job) w'.
Proof.
  destruct (config_get_max_retries w) as (dflt & Hget & Hint).
  set (m := default dflt max_retries).
  destruct (init_wf command job_id "pending" 0 m None None None None w)
    as (job & w1 & Hinit & Hwf & Hcmd & Hst & Hatt & Hmax & _ & _ & Hid & _).
  destruct (save_job_returns job w1) as (w' & Hsave & Hjobs & _).
  assert (Hstored : stored (jobs_json w') (Job.id job) job).
  { unfold stored. rewrite Hjobs. apply dict_get_set_eq. }
  exists job, w', dflt.
  assert (Hrun : QueueManager.enqueue command job_id max_retries w
                 = (inr job, w')).
  { unfold QueueManager.enqueue.
    assert (Hm : (match max_retries with
                  | Some m0 => mret m0
                  | None => Config.get "max_retries"
                              ≫= Config.as_int "max_retries"
                  end) w = (inr m, w)).
    { subst m. by destruct max_retries. }
    rewrite (bind_returns _ _ _ _ _ Hm).
    change (JobState_value PENDING) with "pending".
    rewrite (bind_returns _ _ _ _ _ Hinit).
    by rewrite (bind_returns _ _ _ _ _ Hsave). }
  repeat split; try done.
  - apply Hwf.
  - by apply get_job_stored.
Qed.

Lemma enqueue_returns_persisted_pending_witness :
  ∃ job w',
    returns (QueueManager.enqueue "echo hi" None None) (sample_world [] ∅)
            job w' ∧
    Job.id job = "3f2b8c1e-9d4a-4f6b-8e7a-5c2d1b0f9e8d" ∧
    Job.max_retries job = 3 ∧ Job.state job = "pending" ∧
    stored (jobs_json w') (Job.id job) job.
Proof.
  destruct (enqueue_returns_persisted_pending "echo hi" None None
              (sample_world [] ∅))
    as (job & w' & dflt & Hret & _ & Hst & _ & Hid & _ & Hget & Hmax & Hstored
        & _).
  exists job, w'. repeat split; try assumption.
  unfold returns in Hget. vm_compute in Hget. injection Hget as <-.
  exact Hmax.
Defined.

(** ** C5: the way into [completed] *)

(** C5.  The claim (a job enters [completed] only from [processing]) fails on
    the failed-job branch of [_get_next_job]: with no pending job in the
    file, a job filed as [failed] with retries to spare is handed to
    [_process_job] as it is, never marked [processing]; when its command
    succeeds the record goes from [failed] straight to [completed]. *)
Theorem failed_job_completes_without_processing :
  let w := sample_world (file_of [failed_job]) ∅ in
  let completed :=
    {| Job.id := "job-2"; Job.command := "exit 0"; Job.state := "completed";
       Job.attempts := 1; Job.max_retries := 3;
       Job.created_at := "2025-11-02T18:30:00Z";
       Job.updated_at := "2025-11-03T09:00:00Z";
       Job.last_error := Some "Job timed out"; Job.output := None |} in
  stored (jobs_json w) "job-2" failed_job ∧ Job.state failed_job = "failed" ∧
  outcome Worker._get_next_job w = inr (Some failed_job) ∧
  jobs_json (after Worker._get_next_job w) = jobs_json w ∧
  outcome Worker.start_loop_body w = inr tt ∧
  stored (jobs_json (after Worker.start_loop_body w)) "job-2" completed.
Proof.
  cbn zeta. repeat split; vm_compute; reflexivity.
Qed.

(** A file with a job in state [failed] is what the worker itself leaves
    behind when the backoff sleep raises in the timeout handler: with
    [backoff_base = -1] the first delay is -1.  The next turn of the loop
    then completes that job from [failed]. *)
Lemma failed_state_is_reached_and_completed :
  let w0 := sample_world [] {[ "backoff_base" := -1 ]} in
  let w1 := after (QueueManager.enqueue "./flaky.sh" (Some "job-7") None) w0 in
  let w2 := after Worker.start_loop_body w1 in
  let w3 := after Worker.start_loop_body w2 in
  let failed :=
    {| Job.id := "job-7"; Job.command := "./flaky.sh"; Job.state := "failed";
       Job.attempts := 1; Job.max_retries := 3;
       Job.created_at := "2025-11-03T09:00:00Z";
       Job.updated_at := "2025-11-03T09:00:04Z";
       Job.last_error := Some "Job timed out"; Job.output := None |} in
  let completed :=
    {| Job.id := "job-7"; Job.command := "./flaky.sh";
       Job.state := "completed";
       Job.attempts := 1; Job.max_retries := 3;
       Job.created_at := "2025-11-03T09:00:00Z";
       Job.updated_at := "2025-11-03T09:00:05Z";
       Job.last_error := Some "Job timed out"; Job.output := Some "done" |} in
  outcome Worker.start_loop_body w1
    = inl (Raised "sleep length must be non-negative") ∧
  sleep_log w2 = [-1] ∧
  stored (jobs_json w2) "job-7" failed ∧
  outcome Worker.start_loop_body w2 = inr tt ∧
  stored (jobs_json w3) "job-7" completed.
Proof.
  cbn zeta. repeat split; vm_compute; reflexivity.
Qed.

(** ** C6: the attempts counter *)

(** C6, as stated, is false: the manual retry of a dead job lowers the stored
    attempts count (here from 3 to 0). *)
Lemma retry_job_lowers_attempts :
  ¬ never_lowers_attempts (QueueManager.retry_job "job-1").
Proof.
  intros Hnever.
  set (w := sample_world (file_of [dead_job]) ∅).
  assert (Hwf : jobs_wf (jobs_json w)).
  { split.
    - apply NoDup_singleton.
    - apply Forall_singleton. exists dead_job.
      split; [repeat split; discriminate | reflexivity]. }
  assert (Hdead : stored (jobs_json w) "job-1" dead_job) by reflexivity.
  destruct (retry_job_cases w "job-1" Hwf)
    as [(Hnone & _) | [(j & Hst & _ & _ & Hstate & _)
                      | (j & now & w' & Hst & _ & _ & _ & _ & Heq & _ & Hjobs)]].
  - unfold stored in Hdead. congruence.
  - rewrite (stored_inj _ _ _ _ Hst Hdead) in Hstate. by apply Hstate.
  - destruct (Hnever w (inr true) w' "job-1" dead_job Hwf Heq Hdead)
      as (j' & Hst' & Hle).
    assert (Hset : stored (jobs_json w') "job-1"
              {| Job.id := Job.id j; Job.command := Job.command j;
                 Job.state := "pending"; Job.attempts := 0;
                 Job.max_retries := Job.max_retries j;
                 Job.created_at := Job.created_at j; Job.updated_at := now;
                 Job.last_error := Job.last_error j;
                 Job.output := Job.output j |}).
    { unfold stored. rewrite Hjobs. apply dict_get_set_eq. }
    rewrite (stored_inj _ _ _ _ Hst' Hset) in Hle. cbn in Hle. lia.
Qed.

(** C6, amended.  The worker never lowers a stored attempts count: after one
    turn of the worker loop on a well-formed file, whatever the command and
    the sleep do, every stored job is still filed under its id with at least
    as many attempts; the methods behind it add one ([increment_attempts]) or
    leave the count alone ([update_state]).  The facade can lower it, in two
    ways.  The manual retry of a dead job resets the count to 0.  [enqueue]
    files a new record with attempts 0 under the id it uses, in place of
    whatever job was filed there, so a job enqueued again under its id starts
    from 0; the jobs filed under other ids it leaves as they are. *)
Theorem worker_never_lowers_attempts_facade_resets :
  never_lowers_attempts Worker.start_loop_body ∧
  (∀ job w, ∃ job' w',
     returns (Job.increment_attempts job) w job' w' ∧
     Job.attempts job' = (Job.attempts job + 1)%N) ∧
  (∀ state error output job w, ∃ job' w',
     returns (Job.update_state state error output job) w job' w' ∧
     Job.attempts job' = Job.attempts job) ∧
  (∀ w job_id w',
     jobs_wf (jobs_json w) →
     returns (QueueManager.retry_job job_id) w true w' →
     ∃ j', stored (jobs_json w') job_id j' ∧ Job.attempts j' = 0%N) ∧
  (∀ command job_id max_retries w, ∃ job w',
     returns (QueueManager.enqueue command job_id max_retries) w job w' ∧
     stored (jobs_json w') (Job.id job) job ∧ Job.attempts job = 0%N ∧
     (∀ old, stored (jobs_json w) (Job.id job) old →
        (0 < Job.attempts old)%N →
        ¬ ∃ j', stored (jobs_json w') (Job.id job) j' ∧
                (Job.attempts old ≤ Job.attempts j')%N) ∧
     (∀ other j, other ≠ Job.id job →
        stored (jobs_json w) other j → stored (jobs_json w') other j)).
Proof.
  split; [|split; [|split; [|split]]].
  - intros w r w' job_id j Hwf Hrun Hst.
    destruct (start_loop_body_spec w Hwf)
      as (r0 & w0 & Heq & _ & [Hsame | (j0 & job' & Hst0 & _ & Hid & Hle & _
                                         & Hjobs)]);
      rewrite Hrun in Heq; injection Heq as <- <-.
    + exists j. by rewrite Hsame.
    + destruct (decide (Job.id j0 = job_id)) as [<-|Hne].
      * exists job'. rewrite (stored_inj _ _ _ _ Hst Hst0). split; [|done].
        unfold stored. rewrite Hjobs. apply dict_get_set_eq.
      * exists j. split; [|done].
        unfold stored. rewrite Hjobs. by rewrite dict_get_set_ne.
  - intros job w.
    destruct (increment_attempts_returns job w) as (now & w' & Heq & _).
    eexists _, _. split; [exact Heq|]. done.
  - intros state error output job w.
    destruct (update_state_returns state error output job w)
      as (now & w' & Heq & _).
    eexists _, _. split; [exact Heq|]. done.
  - intros w job_id w' Hwf Hrun.
    destruct (retry_job_cases w job_id Hwf)
      as [(_ & Heq) | [(j & _ & _ & _ & _ & Heq)
                      | (j & now & w0 & _ & _ & _ & _ & _ & Heq & _ & Hjobs)]];
      unfold returns in Hrun; rewrite Hrun in Heq; try discriminate.
    injection Heq as <-. eexists. split.
    + unfold stored. rewrite Hjobs. apply dict_get_set_eq.
    + done.
  - intros command job_id max_retries w.
    destruct (enqueue_spec command job_id max_retries w)
      as (job & w' & dflt & Hrun & _ & _ & _ & _ & _ & Hatt & _ & _ & _
          & Hjobs & _).
    assert (Hst : stored (jobs_json w') (Job.id job) job).
    { unfold stored. rewrite Hjobs. apply dict_get_set_eq. }
    exists job, w'. split; [done|]. split; [done|]. split; [done|]. split.
    + intros old _ Hpos (j' & Hst' & Hle).
      rewrite (stored_inj _ _ _ _ Hst' Hst), Hatt in Hle. lia.
    + intros other j Hne Hother.
      unfold stored. rewrite Hjobs. by rewrite dict_get_set_ne.
Qed.

Lemma worker_never_lowers_attempts_facade_resets_witness :
  (∃ w' j',
     returns (QueueManager.retry_job "job-1")
             (sample_world (file_of [dead_job]) ∅) true w' ∧
     stored (jobs_json w') "job-1" j' ∧ Job.attempts j' = 0%N) ∧
  (∃ job w',
     returns (QueueManager.enqueue "exit 1" (Some "job-1") None)
             (sample_world (file_of [dead_job]) ∅) job w' ∧
     stored (jobs_json (sample_world (file_of [dead_job]) ∅)) "job-1" dead_job ∧
     Job.attempts dead_job = 3%N ∧
     stored (jobs_json w') "job-1" job ∧ Job.attempts job = 0%N).
Proof.
  destruct worker_never_lowers_attempts_facade_resets
    as (_ & _ & _ & Hretry & Henqueue).
  split.
  - assert (Hwf : jobs_wf (jobs_json (sample_world (file_of [dead_job]) ∅))).
    { split.
      - apply NoDup_singleton.
      - apply Forall_singleton. exists dead_job.
        split; [repeat split; discriminate | reflexivity]. }
    eassert (Hrun : returns (QueueManager.retry_job "job-1")
                      (sample_world (file_of [dead_job]) ∅) true _).
    { vm_compute. reflexivity. }
    destruct (Hretry _ _ _ Hwf Hrun) as (j' & Hst & Hatt).
    eexists _, j'. split; [exact Hrun|]. split; assumption.
  - destruct (Henqueue "exit 1" (Some "job-1") None
                (sample_world (file_of [dead_job]) ∅))
      as (job & w' & Hrun & Hst & Hatt & _).
    assert (Hid : Job.id job = "job-1").
    { unfold returns in Hrun. vm_compute in Hrun.
      injection Hrun as <- _. reflexivity. }
    rewrite Hid in Hst.
    exists job, w'. split; [exact Hrun|]. split; [reflexivity|].
    split; [reflexivity|]. split; [exact Hst | exact Hatt].
Defined.

(** ** C7: [last_error] is not cleared *)

(** C7.  No transition clears [last_error].  [update_state] without a new
    error (absent or empty) leaves it unchanged and with one never leaves it
    empty-handed; [increment_attempts] leaves it unchanged.  The failure
    handler records the same value on the way to [failed] and on the way
    back to [pending] (the job it leaves has it whether the sleep raised or
    returned).  Completing a job and the manual retry of a dead job leave it
    unchanged, and across a whole turn of the worker loop a stored job that
    had an error still has one. *)
Theorem last_error_is_never_cleared :
  (∀ state error output job w, ∃ job' w',
     returns (Job.update_state state error output job) w job' w' ∧
     (error = None ∨ error = Some "" →
      Job.last_error job' = Job.last_error job) ∧
     (is_Some (Job.last_error job) → is_Some (Job.last_error job'))) ∧
  (∀ job w, ∃ job' w',
     returns (Job.increment_attempts job) w job' w' ∧
     Job.last_error job' = Job.last_error job) ∧
  (∀ error job w, ∃ r job' w',
     Worker._handle_job_failure error (job, w) = (r, (job', w')) ∧
     (Job.state job' = "pending" ∨ Job.state job' = "failed" ∨
      Job.state job' = "dead") ∧
     Job.last_error job' =
       (if truthy error then Some error else Job.last_error job)) ∧
  (∀ job w result,
     subprocess_run (oracle w) (runs w) (Job.command job)
       = RunReturned result →
     returncode result = 0 →
     ∃ job' w',
       returns Worker.process_job_body (job, w) tt (job', w') ∧
       Job.state job' = "completed" ∧
       Job.last_error job' = Job.last_error job) ∧
  (∀ w job_id w' j,
     jobs_wf (jobs_json w) →
     returns (QueueManager.retry_job job_id) w true w' →
     stored (jobs_json w) job_id j →
     ∃ j', stored (jobs_json w') job_id j' ∧
           Job.last_error j' = Job.last_error j) ∧
  (∀ w r w' job_id j,
     jobs_wf (jobs_json w) → Worker.start_loop_body w = (r, w') →
     stored (jobs_json w) job_id j → is_Some (Job.last_error j) →
     ∃ j', stored (jobs_json w') job_id j' ∧ is_Some (Job.last_error j')).
Proof.
  split; [|split; [|split; [|split; [|split]]]].
  - intros state error output job w.
    destruct (update_state_returns state error output job w)
      as (now & w' & Heq & _).
    eexists _, _. split; [exact Heq|]. cbn. split.
    + by intros [-> | ->].
    + intros HS. destruct (truthy_opt error) eqn:Ht; [|done].
      destruct error; [eauto | discriminate].
  - intros job w.
    destruct (increment_attempts_returns job w) as (now & w' & Heq & _).
    eexists _, _. split; [exact Heq|]. done.
  - intros error job w.
    destruct (handle_job_failure_frame error job w)
      as (r & job' & w' & Heq & _ & _ & _ & _ & _ & _ & _ & Herr & _ & _
          & Hst & _).
    by exists r, job', w'.
  - intros job w result Hrun Hrc.
    destruct (process_job_body_spec job w)
      as (r & job' & w' & Heq & _ & _ & _ & _ & _ & _ & _ & _ & _ & Hcase).
    rewrite Hrun in Hcase. rewrite decide_True in Hcase by done.
    destruct Hcase as (-> & Hst & _ & Herr & _).
    by exists job', w'.
  - intros w job_id w' j Hwf Hrun Hst.
    destruct (retry_job_cases w job_id Hwf)
      as [(_ & Heq) | [(j0 & _ & _ & _ & _ & Heq)
                      | (j0 & now & w0 & Hst0 & _ & _ & _ & _ & Heq & _
                         & Hjobs)]];
      unfold returns in Hrun; rewrite Hrun in Heq; try discriminate.
    injection Heq as <-. rewrite (stored_inj _ _ _ _ Hst Hst0).
    eexists. split.
    + unfold stored. rewrite Hjobs. apply dict_get_set_eq.
    + done.
  - intros w r w' job_id j Hwf Hrun Hst HS.
    destruct (start_loop_body_spec w Hwf)
      as (r0 & w0 & Heq & _ & [Hsame | (j0 & job' & Hst0 & _ & Hid & _ & Herr
                                         & Hjobs)]);
      rewrite Hrun in Heq; injection Heq as <- <-.
    + exists j. by rewrite Hsame.
    + destruct (decide (Job.id j0 = job_id)) as [<-|Hne].
      * exists job'. rewrite (stored_inj _ _ _ _ Hst Hst0) in HS.
        split; [|by apply Herr].
        unfold stored. rewrite Hjobs. apply dict_get_set_eq.
      * exists j. split; [|done].
        unfold stored. rewrite Hjobs. by rewrite dict_get_set_ne.
Qed.

Lemma last_error_is_never_cleared_witness :
  ∃ job' w',
    returns Worker.process_job_body
            (failed_job, sample_world (file_of [failed_job]) ∅) tt (job', w') ∧
    Job.state job' = "completed" ∧
    Job.last_error job' = Some "Job timed out".
Proof.
  destruct last_error_is_never_cleared as (_ & _ & _ & Hdone & _).
  destruct (Hdone failed_job (sample_world (file_of [failed_job]) ∅)
              {| returncode := 0; stdout := ""; stderr := "" |}
              eq_refl eq_refl)
    as (job' & w' & Hrun & Hst & Herr).
  exists job', w'. split; [exact Hrun|]. split; [exact Hst | exact Herr].
Defined.

(** ** C8: serialisation round trip *)

(** Every job object is well formed: [__init__] builds only such objects,
    and the methods and the attribute assignment of [retry_job] keep them
    so. *)
Lemma job_objects_are_well_formed :
  (∀ command job_id state attempts max_retries created_at updated_at
     last_error output w,
     ∃ job w',
       returns (Job.__init__ command job_id state attempts max_retries
                             created_at updated_at last_error output)
               w job w' ∧ Job_wf job) ∧
  (∀ state error output job w, Job_wf job →
     ∃ job' w', returns (Job.update_state state error output job) w job' w' ∧
                Job_wf job') ∧
  (∀ job w, Job_wf job →
     ∃ job' w', returns (Job.increment_attempts job) w job' w' ∧
                Job_wf job') ∧
  (∀ n job, Job_wf job → Job_wf (Job.set_attempts n job)).
Proof.
  split; [|split; [|split]].
  - intros. edestruct init_wf as (job & w' & Heq & Hwf & _).
    exists job, w'. split; [exact Heq | exact Hwf].
  - intros state error output job w (Hid & Hcr & Hup).
    destruct (update_state_returns state error output job w)
      as (now & w' & Heq & Hnow & _).
    eexists _, _. split; [exact Heq|]. by repeat split.
  - intros job w (Hid & Hcr & Hup).
    destruct (increment_attempts_returns job w) as (now & w' & Heq & Hnow & _).
    eexists _, _. split; [exact Heq|]. by repeat split.
  - intros n job (Hid & Hcr & Hup). by repeat split.
Qed.

(** C8.  For every job object ([Job_wf], which [__init__] establishes and
    every method keeps), [from_dict (to_dict job)] returns a record equal to
    [job], all nine fields, and draws neither an identifier nor a clock
    reading; in particular this holds of whatever [__init__] builds. *)
Theorem from_dict_inverts_to_dict :
  (∀ job w, Job_wf job → returns (Job.from_dict (Job.to_dict job)) w job w) ∧
  (∀ command job_id state attempts max_retries created_at updated_at
     last_error output w,
     ∃ job w',
       returns (Job.__init__ command job_id state attempts max_retries
                             created_at updated_at last_error output)
               w job w' ∧
       ∀ w2, returns (Job.from_dict (Job.to_dict job)) w2 job w2).
Proof.
  split.
  - intros job w Hwf. by apply from_dict_to_dict.
  - intros. edestruct init_wf as (job & w' & Heq & Hwf & _).
    exists job, w'. split; [exact Heq|].
    intros w2. by apply from_dict_to_dict.
Qed.

Lemma from_dict_inverts_to_dict_witness :
  returns (Job.from_dict (Job.to_dict dead_job)) (sample_world [] ∅)
          dead_job (sample_world [] ∅).
Proof.
  apply from_dict_inverts_to_dict.
  repeat split; discriminate.
Defined.

(** ** C9: counts *)

Lemma sum_values_increment (counts : gmap string Z) k n :
  counts !! k = Some n →
  sum_values (<[k := n + 1]> counts) = sum_values counts + 1.
Proof.
  intros Hk. unfold sum_values.
  assert (Hold : map_fold (λ (_ : string) n acc, n + acc) 0 counts
                 = n + map_fold (λ (_ : string) n acc, n + acc) 0
                                (delete k counts)).
  { apply (map_fold_delete_L (λ (_ : string) n acc, n + acc)); [|done].
    intros; lia. }
  assert (Hnew : map_fold (λ (_ : string) n acc, n + acc) 0
                          (<[k := n + 1]> (delete k counts))
                 = n + 1 + map_fold (λ (_ : string) n acc, n + acc) 0
                                    (delete k counts)).
  { apply (map_fold_insert_L (λ (_ : string) n acc, n + acc)).
    - intros; lia.
    - apply lookup_delete_eq. }
  rewrite <- (insert_delete_eq counts k (n + 1)).
  rewrite Hnew, Hold. lia.
Qed.

Lemma count_jobs_spec ds (counts : gmap string Z) w :
  Forall has_valid_state ds →
  (∀ state, is_Some (counts !! JobState_value state)) →
  ∃ counts',
    Storage.count_jobs counts ds w = (inr counts', w) ∧
    dom counts' = dom counts ∧
    sum_values counts' = sum_values counts + Z.of_nat (length ds).
Proof.
  intros Hds. revert counts.
  induction Hds as [|d ds [state Hstate] _ IH]; intros counts Hkeys.
  - exists counts. cbn [length Storage.count_jobs].
    split; [done|]. split; [done | lia].
  - destruct (Hkeys state) as [n Hn].
    assert (Hstep : Storage.count_job counts d w
                    = (inr (<[JobState_value state := n + 1]> counts), w)).
    { unfold Storage.count_job, Job.subscript. rewrite Hstate. run_st.
      by rewrite Hn. }
    destruct (IH (<[JobState_value state := n + 1]> counts))
      as (counts' & Heq & Hdom & Hsum).
    { intros state'. rewrite lookup_insert. case_decide; eauto. }
    exists counts'. split; [|split].
    + cbn [Storage.count_jobs]. by rewrite (bind_returns _ _ _ _ _ Hstep).
    + rewrite Hdom. apply dom_insert_lookup_L. eauto.
    + rewrite Hsum, (sum_values_increment _ _ _ Hn).
      cbn [length]. lia.
Qed.

(** C9.  When every record in the jobs file carries one of the five state
    names, [get_job_counts] returns a mapping whose keys are exactly the five
    state names and whose values add up to the number of jobs in the file. *)
Theorem counts_sum_to_number_of_jobs w :
  Forall has_valid_state (Storage.dict_values (jobs_json w)) →
  ∃ counts,
    returns Storage.get_job_counts w counts w ∧
    dom counts = state_names ∧
    sum_values counts = Z.of_nat (length (jobs_json w)).
Proof.
  intros Hvalid.
  destruct (count_jobs_spec _ Storage.zero_counts w Hvalid)
    as (counts & Heq & Hdom & Hsum).
  { intros []; by eexists. }
  exists counts. split; [|split].
  - unfold returns, Storage.get_job_counts, Storage._read_jobs. run_st.
    exact Heq.
  - rewrite Hdom. reflexivity.
  - rewrite Hsum. unfold Storage.dict_values. rewrite length_fmap.
    reflexivity.
Qed.

Lemma counts_sum_to_number_of_jobs_witness :
  ∃ counts,
    returns Storage.get_job_counts
            (sample_world (file_of [dead_job; failed_job; rerun_job]) ∅)
            counts
            (sample_world (file_of [dead_job; failed_job; rerun_job]) ∅) ∧
    dom counts = state_names ∧ sum_values counts = 3.
Proof.
  apply (counts_sum_to_number_of_jobs
           (sample_world (file_of [dead_job; failed_job; rerun_job]) ∅)).
  repeat constructor.
  - by exists DEAD.
  - by exists FAILED.
  - by exists PROCESSING.
Defined.

(** ** C10: falsy error and output *)

(** C10.  [update_state] with an absent or empty error leaves [last_error]
    as it was, and with an absent or empty output leaves [output] as it was.
    In particular, when the command exits with status 0 and an empty
    standard output, the job is completed with the [output] it had before
    ([None] for a job that never produced any). *)
Theorem falsy_error_and_output_are_ignored :
  (∀ state error output job w, ∃ job' w',
     returns (Job.update_state state error output job) w job' w' ∧
     (error = None ∨ error = Some "" →
      Job.last_error job' = Job.last_error job) ∧
     (output = None ∨ output = Some "" →
      Job.output job' = Job.output job)) ∧
  (∀ job w result,
     subprocess_run (oracle w) (runs w) (Job.command job)
       = RunReturned result →
     returncode result = 0 → stdout result = "" →
     ∃ job' w',
       returns Worker.process_job_body (job, w) tt (job', w') ∧
       Job.state job' = "completed" ∧
       Job.output job' = Job.output job ∧
       stored (jobs_json w') (Job.id job) job').
Proof.
  split.
  - intros state error output job w.
    destruct (update_state_returns state error output job w)
      as (now & w' & Heq & _).
    eexists _, _. split; [exact Heq|]. cbn.
    split; by intros [-> | ->].
  - intros job w result Hrun Hrc Hout.
    destruct (process_job_body_spec job w)
      as (r & job' & w' & Heq & Hid & _ & _ & _ & _ & _ & _ & Hjobs & _
          & Hcase).
    rewrite Hrun in Hcase. rewrite decide_True in Hcase by done.
    destruct Hcase as (-> & Hst & _ & _ & Houtput & _).
    rewrite Hout in Houtput. cbn in Houtput.
    exists job', w'. repeat split; try done.
    unfold stored. rewrite Hjobs. apply dict_get_set_eq.
Qed.

Lemma falsy_error_and_output_are_ignored_witness :
  (∃ job' w',
     returns Worker.process_job_body
             (failed_job, sample_world (file_of [failed_job]) ∅)
             tt (job', w') ∧
     Job.state job' = "completed" ∧ Job.output job' = None) ∧
  (∃ job' w',
     returns Worker.process_job_body
             (rerun_job, sample_world (file_of [rerun_job]) ∅)
             tt (job', w') ∧
     Job.state job' = "completed" ∧ Job.output job' = Some "hi").
Proof.
  destruct falsy_error_and_output_are_ignored as (_ & Hdone).
  split.
  - destruct (Hdone failed_job (sample_world (file_of [failed_job]) ∅)
                {| returncode := 0; stdout := ""; stderr := "" |}
                eq_refl eq_refl eq_refl)
      as (job' & w' & Hrun & Hst & Hout & _).
    exists job', w'. split; [exact Hrun|]. split; [exact Hst | exact Hout].
  - destruct (Hdone rerun_job (sample_world (file_of [rerun_job]) ∅)
                {| returncode := 0; stdout := ""; stderr := "" |}
                eq_refl eq_refl eq_refl)
      as (job' & w' & Hrun & Hst & Hout & _).
    exists job', w'. split; [exact Hrun|]. split; [exact Hst | exact Hout].
Defined.

(** * Further properties of the code *)

(** ** job.py: reading dictionaries *)

Lemma from_dict_requires_keys (data : Dict) w :
  (data !! "command" = None →
   Job.from_dict data w = (inl (KeyError (VStr "command")), w)) ∧
  (∀ command, data !! "command" = Some (VStr command) →
     data !! "id" = None →
     Job.from_dict data w = (inl (KeyError (VStr "id")), w)).
Proof.
  split.
  - intros Hc. unfold Job.from_dict, Job.subscript. rewrite Hc. by run_st.
  - intros command Hc Hid. unfold Job.from_dict, Job.subscript.
    rewrite Hc, Hid. by run_st.
Qed.

(** X1.  [from_dict] needs the keys ['command'] and ['id'], in that order:
    without ['command'] it raises [KeyError('command')] whatever else the
    dictionary holds, and with a command but no ['id'] it raises
    [KeyError('id')].  Nothing is drawn from the clock or the generator. *)
Theorem from_dict_requires_command_and_id (data : Dict) w :
  (data !! "command" = None →
   raises (Job.from_dict data) w (KeyError (VStr "command")) w) ∧
  (∀ command, data !! "command" = Some (VStr command) →
     data !! "id" = None →
     raises (Job.from_dict data) w (KeyError (VStr "id")) w).
Proof. apply from_dict_requires_keys. Qed.

Lemma from_dict_requires_command_and_id_witness :
  raises (Job.from_dict (<["id" := VStr "job-1"]> ∅)) (sample_world [] ∅)
         (KeyError (VStr "command")) (sample_world [] ∅) ∧
  raises (Job.from_dict (<["command" := VStr "exit 0"]> ∅)) (sample_world [] ∅)
         (KeyError (VStr "id")) (sample_world [] ∅).
Proof.
  split.
  - apply (from_dict_requires_command_and_id (<["id" := VStr "job-1"]> ∅)).
    reflexivity.
  - apply (from_dict_requires_command_and_id
             (<["command" := VStr "exit 0"]> ∅) _) with (command := "exit 0");
      reflexivity.
Defined.

(** X2.  Every other key is optional: from a dictionary holding only a
    command and a non-empty id, [from_dict] builds a pending job with 0
    attempts, [max_retries] 3, no error and no output, stamped with the next
    two clock readings. *)
Theorem from_dict_fills_defaults (data : Dict) command job_id w :
  data !! "command" = Some (VStr command) →
  data !! "id" = Some (VStr job_id) → job_id ≠ "" →
  data !! "state" = None → data !! "attempts" = None →
  data !! "max_retries" = None →
  data !! "created_at" = None → data !! "updated_at" = None →
  data !! "last_error" = None → data !! "output" = None →
  ∃ w',
    returns (Job.from_dict data) w
      {| Job.id := job_id; Job.command := command; Job.state := "pending";
         Job.attempts := 0; Job.max_retries := 3;
         Job.created_at := utcnow_isoformat (oracle w) (ticks w) +:+ "Z";
         Job.updated_at := utcnow_isoformat (oracle w) (S (ticks w)) +:+ "Z";
         Job.last_error := None; Job.output := None |} w' ∧
    ticks w' = S (S (ticks w)) ∧ draws w' = draws w ∧
    jobs_json w' = jobs_json w.
Proof.
  intros Hc Hid Hne Hs Ha Hm Hcr Hup He Ho.
  unfold Job.from_dict, Job.subscript, Job.get.
  rewrite Hc, Hid, Hs, Ha, Hm, Hcr, Hup, He, Ho.
  run_st. rewrite truthy_ne by done.
  eexists. split; [reflexivity|]. done.
Qed.

Lemma from_dict_fills_defaults_witness :
  ∃ job w',
    returns (Job.from_dict
               (<["command" := VStr "echo hi"]> (<["id" := VStr "job-4"]> ∅)))
            (sample_world [] ∅) job w' ∧
    Job.state job = "pending" ∧ Job.max_retries job = 3 ∧
    Job.created_at job = "2025-11-03T09:00:00Z".
Proof.
  destruct (from_dict_fills_defaults
              (<["command" := VStr "echo hi"]> (<["id" := VStr "job-4"]> ∅))
              "echo hi" "job-4" (sample_world [] ∅))
    as (w' & Hret & _); try reflexivity; try discriminate.
  eexists _, w'. split; [exact Hret|]. repeat split.
Defined.

(** X3.  A record whose ['id'] is [null] or empty does not come back as it
    was written: [from_dict] gives the job a freshly generated id (and draws
    one identifier), leaving the other fields as stored. *)
Theorem from_dict_replaces_empty_id job w :
  Job.created_at job ≠ "" → Job.updated_at job ≠ "" →
  ∀ stored_id, stored_id = VNone ∨ stored_id = VStr "" →
  ∃ w',
    returns (Job.from_dict (<["id" := stored_id]> (Job.to_dict job))) w
      {| Job.id := str_uuid (uuid4_hex (oracle w) (draws w));
         Job.command := Job.command job; Job.state := Job.state job;
         Job.attempts := Job.attempts job;
         Job.max_retries := Job.max_retries job;
         Job.created_at := Job.created_at job;
         Job.updated_at := Job.updated_at job;
         Job.last_error := Job.last_error job;
         Job.output := Job.output job |} w' ∧
    draws w' = S (draws w) ∧ ticks w' = ticks w.
Proof.
  intros Hcr Hup stored_id Hid.
  destruct (to_dict_lookups job) as (_ & L2 & L3 & L4 & L5 & L6 & L7 & L8 & L9).
  unfold Job.from_dict, Job.subscript, Job.get.
  rewrite lookup_insert_eq.
  rewrite !lookup_insert_ne by done.
  rewrite L2, L3, L4, L5, L6, L7, L8, L9.
  destruct Hid as [-> | ->]; run_st;
    rewrite decide_True by lia;
    rewrite N2Z.id, (truthy_ne (Job.created_at job)),
      (truthy_ne (Job.updated_at job)) by done;
    destruct job as [? ? ? ? ? ? ? [e|] [o|]]; cbn;
    (eexists; split; [reflexivity|]; done).
Qed.

Lemma from_dict_replaces_empty_id_witness :
  ∃ job w',
    returns (Job.from_dict (<["id" := VStr ""]> (Job.to_dict dead_job)))
            (sample_world [] ∅) job w' ∧
    Job.id job = "3f2b8c1e-9d4a-4f6b-8e7a-5c2d1b0f9e8d" ∧
    Job.state job = "dead".
Proof.
  destruct (from_dict_replaces_empty_id dead_job (sample_world [] ∅))
    with (stored_id := VStr "") as (w' & Hret & _);
    try discriminate; [by right|].
  eexists _, w'. split; [exact Hret|]. split; reflexivity.
Defined.

(** ** storage.py: the jobs file *)

Lemma dict_get_del_eq jobs k :
  NoDup jobs.*1 → Storage.dict_get (Storage.dict_del jobs k) k = None.
Proof.
  induction jobs as [|[k0 v0] jobs IH]; cbn; [done|].
  intros [Hnin Hnd]%NoDup_cons.
  destruct (decide (k0 = k)) as [->|Hne]; cbn.
  - destruct (Storage.dict_get jobs k) as [v|] eqn:Hget; [|done].
    exfalso. apply Hnin. apply list_elem_of_fmap.
    exists (k, v). split; [done|]. by apply dict_get_Some_elem.
  - rewrite decide_False by done. by apply IH.
Qed.

Lemma dict_get_del_ne jobs k k' :
  k ≠ k' →
  Storage.dict_get (Storage.dict_del jobs k) k' = Storage.dict_get jobs k'.
Proof.
  intros Hne. induction jobs as [|[k0 v0] jobs IH]; cbn; [done|].
  destruct (decide (k0 = k)) as [->|Hne0]; cbn.
  - by rewrite decide_False.
  - by rewrite IH.
Qed.

Lemma dict_del_missing jobs k :
  Storage.dict_get jobs k = None → Storage.dict_del jobs k = jobs.
Proof.
  induction jobs as [|[k0 v0] jobs IH]; cbn; [done|].
  destruct (decide (k0 = k)); [done|]. intros H. by rewrite IH.
Qed.

Lemma dict_del_set_new jobs k v :
  Storage.dict_get jobs k = None →
  Storage.dict_del (Storage.dict_set jobs k v) k = jobs.
Proof.
  induction jobs as [|[k0 v0] jobs IH]; cbn.
  - by rewrite decide_True.
  - destruct (decide (k0 = k)); [done|]. intros H. cbn.
    by rewrite decide_False, IH.
Qed.

Lemma dict_del_elem jobs k entry :
  entry ∈ Storage.dict_del jobs k → entry ∈ jobs.
Proof.
  induction jobs as [|[k0 v0] jobs IH]; cbn; [done|].
  destruct (decide (k0 = k)).
  - intros H. apply elem_of_cons. by right.
  - intros [->|H]%elem_of_cons; apply elem_of_cons; [by left|].
    right. by apply IH.
Qed.

Lemma dict_del_keys_NoDup jobs k :
  NoDup jobs.*1 → NoDup (Storage.dict_del jobs k).*1.
Proof.
  induction jobs as [|[k0 v0] jobs IH]; cbn; [done|].
  intros [Hnin Hnd]%NoDup_cons.
  destruct (decide (k0 = k)); [done|]. cbn.
  apply NoDup_cons. split; [|by apply IH].
  intros ((k1 & v1) & Hk & Hin)%list_elem_of_fmap. cbn in Hk. subst k1.
  apply Hnin. apply list_elem_of_fmap. exists (k0, v1).
  split; [done|]. by eapply dict_del_elem.
Qed.

Lemma world_eta w :
  {| oracle := oracle w; draws := draws w; ticks := ticks w; runs := runs w;
     sleep_log := sleep_log w; jobs_json := jobs_json w;
     config_json := config_json w |} = w.
Proof. by destruct w. Qed.

(** X4.  What [save_job] writes, [get_job] reads back: after saving a job
    object it is the job filed under its id, every other id reads as before,
    an id already in the file keeps its place while a new one goes last, the
    file stays well formed, and saving the same job again changes nothing. *)
Theorem save_job_then_get_job job w :
  Job_wf job →
  ∃ w',
    returns (Storage.save_job job) w tt w' ∧
    returns (Storage.get_job (Job.id job)) w' (Some job) w' ∧
    (∀ other, other ≠ Job.id job →
       Storage.dict_get (jobs_json w') other =
         Storage.dict_get (jobs_json w) other) ∧
    (jobs_json w').*1 =
      (if decide (Job.id job ∈ (jobs_json w).*1) then (jobs_json w).*1
       else (jobs_json w).*1 ++ [Job.id job]) ∧
    (jobs_wf (jobs_json w) → jobs_wf (jobs_json w')) ∧
    returns (Storage.save_job job) w' tt w'.
Proof.
  intros Hwf.
  destruct (save_job_returns job w) as (w' & Hsave & Hjobs & _).
  exists w'. split; [done|].
  assert (Hst : stored (jobs_json w') (Job.id job) job).
  { unfold stored. rewrite Hjobs. apply dict_get_set_eq. }
  split; [by apply get_job_stored|]. split; [|split; [|split]].
  - intros other Hne. rewrite Hjobs. by apply dict_get_set_ne.
  - rewrite Hjobs. apply dict_set_keys.
  - intros Hfile. rewrite Hjobs. by apply jobs_wf_set.
  - unfold returns, Storage.save_job, Storage._read_jobs, Storage._write_jobs.
    run_st. rewrite Hjobs at 1. rewrite dict_set_set, <- Hjobs.
    by rewrite world_eta.
Qed.

Lemma save_job_then_get_job_witness :
  ∃ w',
    returns (Storage.save_job failed_job)
            (sample_world (file_of [dead_job]) ∅) tt w' ∧
    returns (Storage.get_job "job-2") w' (Some failed_job) w' ∧
    (jobs_json w').*1 = ["job-1"; "job-2"].
Proof.
  destruct (save_job_then_get_job failed_job
              (sample_world (file_of [dead_job]) ∅))
    as (w' & Hsave & Hget & _ & Hkeys & _).
  { repeat split; discriminate. }
  exists w'. split; [exact Hsave|]. split; [exact Hget | exact Hkeys].
Defined.

(** X5.  [delete_job] removes exactly the entry filed under the id: on a
    file with unique keys the id is not found afterwards, every other id
    reads as before and a well-formed file stays so; deleting an id that is
    not in the file writes nothing; and deleting a job just saved under a
    new id gives back the file as it was. *)
Theorem delete_job_removes_only_that_job job_id w :
  NoDup (jobs_json w).*1 →
  ∃ w',
    returns (Storage.delete_job job_id) w tt w' ∧
    returns (Storage.get_job job_id) w' None w' ∧
    (∀ other, other ≠ job_id →
       Storage.dict_get (jobs_json w') other =
         Storage.dict_get (jobs_json w) other) ∧
    (jobs_wf (jobs_json w) → jobs_wf (jobs_json w')) ∧
    (Storage.dict_get (jobs_json w) job_id = None → w' = w) ∧
    (∀ job w0, Job.id job = job_id →
       Storage.dict_get (jobs_json w0) job_id = None →
       returns (Storage.save_job job) w0 tt w → jobs_json w' = jobs_json w0).
Proof.
  intros Hnd.
  assert (Hrun : ∃ w', Storage.delete_job job_id w = (inr tt, w') ∧
            jobs_json w' = Storage.dict_del (jobs_json w) job_id ∧
            (Storage.dict_get (jobs_json w) job_id = None → w' = w)).
  { unfold Storage.delete_job, Storage._read_jobs, Storage._write_jobs.
    run_st. destruct (Storage.dict_get (jobs_json w) job_id) eqn:Hget.
    - eexists. split; [reflexivity|]. split; [done|]. intros [=].
    - exists w. split; [done|]. split; [|done].
      by rewrite dict_del_missing. }
  destruct Hrun as (w' & Hrun & Hjobs & Hsame).
  exists w'. split; [done|]. split; [|split; [|split; [|split]]].
  - apply get_job_missing. rewrite Hjobs. by apply dict_get_del_eq.
  - intros other Hne. rewrite Hjobs. by apply dict_get_del_ne.
  - intros [_ Hall]. rewrite Hjobs. split.
    + by apply dict_del_keys_NoDup.
    + apply Forall_forall. intros entry Hin%dict_del_elem.
      rewrite Forall_forall in Hall. by apply Hall.
  - done.
  - intros job w0 Hid Hnone Hsave.
    destruct (save_job_returns job w0) as (w1 & Heq & Hjobs1 & _).
    unfold returns in Hsave. rewrite Hsave in Heq. injection Heq as <-.
    rewrite Hjobs, Hjobs1, Hid. by apply dict_del_set_new.
Qed.

Lemma delete_job_removes_only_that_job_witness :
  ∃ w',
    returns (Storage.delete_job "job-1")
            (sample_world (file_of [dead_job; failed_job]) ∅) tt w' ∧
    returns (Storage.get_job "job-1") w' None w' ∧
    Storage.dict_get (jobs_json w') "job-2" = Some (Job.to_dict failed_job).
Proof.
  destruct (delete_job_removes_only_that_job "job-1"
              (sample_world (file_of [dead_job; failed_job]) ∅))
    as (w' & Hdel & Hget & Hframe & _).
  { cbn. apply NoDup_cons. split.
    - intros Hin%list_elem_of_singleton. discriminate.
    - apply NoDup_singleton. }
  exists w'. split; [exact Hdel|]. split; [exact Hget|].
  rewrite Hframe by discriminate. reflexivity.
Defined.

(** X6.  [get_job] reports "not found" as [None], without touching
    anything, both for an id that is not in the file and for an id filed
    with an empty dictionary (which is falsy); for a non-empty dictionary
    without a ['command'] it raises [KeyError('command')] instead. *)
Theorem get_job_not_found_or_key_error job_id w :
  (Storage.dict_get (jobs_json w) job_id = None →
   returns (Storage.get_job job_id) w None w) ∧
  (Storage.dict_get (jobs_json w) job_id = Some ∅ →
   returns (Storage.get_job job_id) w None w) ∧
  (∀ job_data, Storage.dict_get (jobs_json w) job_id = Some job_data →
     job_data ≠ ∅ → job_data !! "command" = None →
     raises (Storage.get_job job_id) w (KeyError (VStr "command")) w).
Proof.
  split; [|split].
  - apply get_job_missing.
  - intros Hget. unfold returns, Storage.get_job, Storage._read_jobs. run_st.
    by rewrite Hget.
  - intros job_data Hget Hne Hc.
    unfold raises, Storage.get_job, Storage._read_jobs.
    unfold mbind at 1. unfold ST_bind. rewrite Hget.
    rewrite decide_False by done.
    destruct (from_dict_requires_keys job_data w) as [Hraise _].
    unfold mbind, ST_bind. by rewrite (Hraise Hc).
Qed.

Lemma get_job_not_found_or_key_error_witness :
  returns (Storage.get_job "job-9") (sample_world (file_of [dead_job]) ∅)
          None (sample_world (file_of [dead_job]) ∅) ∧
  returns (Storage.get_job "job-9") (sample_world [("job-9", ∅)] ∅)
          None (sample_world [("job-9", ∅)] ∅) ∧
  raises (Storage.get_job "job-9")
         (sample_world [("job-9", <["id" := VStr "job-9"]> ∅)] ∅)
         (KeyError (VStr "command"))
         (sample_world [("job-9", <["id" := VStr "job-9"]> ∅)] ∅).
Proof.
  split; [|split].
  - destruct (get_job_not_found_or_key_error "job-9"
                (sample_world (file_of [dead_job]) ∅)) as (Hmissing & _).
    apply Hmissing. reflexivity.
  - destruct (get_job_not_found_or_key_error "job-9"
                (sample_world [("job-9", ∅)] ∅)) as (_ & Hempty & _).
    apply Hempty. reflexivity.
  - destruct (get_job_not_found_or_key_error "job-9"
                (sample_world [("job-9", <["id" := VStr "job-9"]> ∅)] ∅))
      as (_ & _ & Hkey).
    apply (Hkey (<["id" := VStr "job-9"]> ∅)); [reflexivity| |reflexivity].
    intros H. apply (f_equal (λ m : Dict, m !! "id")) in H. discriminate.
Defined.

(** ** storage.py and queue_manager.py: listings and counts *)

Lemma from_dicts_objects js w :
  Forall Job_wf js → Storage.from_dicts (Job.to_dict <$> js) w = (inr js, w).
Proof.
  induction 1 as [|j js Hj _ IH]; [done|].
  cbn [fmap list_fmap Storage.from_dicts].
  rewrite (bind_returns _ _ _ _ _ (from_dict_to_dict j w Hj)).
  fold (list_fmap _ _ Job.to_dict js).
  by rewrite (bind_returns _ _ _ _ _ IH).
Qed.

(** X7.  On a well-formed file the listings are read-only views of the
    stored jobs: [get_all_jobs] returns them all in file order,
    [get_jobs_by_state] returns those in the given state, in the same order,
    and [list_jobs] is the one or the other. *)
Theorem listings_follow_the_file w :
  jobs_wf (jobs_json w) →
  ∃ jobs,
    jobs_json w = file_of jobs ∧
    returns Storage.get_all_jobs w jobs w ∧
    returns (QueueManager.list_jobs None) w jobs w ∧
    ∀ state,
      let in_state := filter (λ j, Job.state j = JobState_value state) jobs in
      returns (Storage.get_jobs_by_state state) w in_state w ∧
      returns (QueueManager.list_jobs (Some state)) w in_state w.
Proof.
  intros Hwf. destruct (jobs_wf_objects _ Hwf) as (js & Hjobs & Hjs).
  exists js. split; [done|].
  assert (Hall : Storage.get_all_jobs w = (inr js, w)).
  { unfold Storage.get_all_jobs, Storage._read_jobs.
    unfold mbind, ST_bind. rewrite Hjobs, dict_values_objects.
    by apply from_dicts_objects. }
  split; [done|]. split; [done|].
  intros state. cbn zeta.
  split; by apply get_jobs_by_state_objects.
Qed.

Lemma listings_follow_the_file_witness :
  ∃ jobs,
    jobs_json (sample_world (file_of [dead_job; failed_job]) ∅)
      = file_of jobs ∧
    returns Storage.get_all_jobs
            (sample_world (file_of [dead_job; failed_job]) ∅) jobs
            (sample_world (file_of [dead_job; failed_job]) ∅) ∧
    returns (Storage.get_jobs_by_state DEAD)
            (sample_world (file_of [dead_job; failed_job]) ∅)
            (filter (λ j, Job.state j = "dead") jobs)
            (sample_world (file_of [dead_job; failed_job]) ∅).
Proof.
  destruct (listings_follow_the_file
              (sample_world (file_of [dead_job; failed_job]) ∅))
    as (jobs & Hfile & Hall & _ & Hby).
  { split.
    - cbn. apply NoDup_cons. split.
      + intros Hin%list_elem_of_singleton. discriminate.
      + apply NoDup_singleton.
    - repeat constructor.
      + exists dead_job. split; [repeat split; discriminate | reflexivity].
      + exists failed_job. split; [repeat split; discriminate | reflexivity]. }
  exists jobs. split; [exact Hfile|]. split; [exact Hall|].
  exact (proj1 (Hby DEAD)).
Defined.

Lemma JobState_value_inj s1 s2 :
  JobState_value s1 = JobState_value s2 → s1 = s2.
Proof. destruct s1, s2; cbn; congruence. Qed.

Lemma count_jobs_objects js (counts : gmap string Z) w :
  Forall (λ j, ∃ state, Job.state j = JobState_value state) js →
  (∀ state, is_Some (counts !! JobState_value state)) →
  ∃ counts',
    Storage.count_jobs counts (Job.to_dict <$> js) w = (inr counts', w) ∧
    ∀ state,
      counts' !! JobState_value state =
        (λ n, n + Z.of_nat
                    (length (filter (λ j, Job.state j = JobState_value state)
                                    js)))
          <$> counts !! JobState_value state.
Proof.
  intros Hjs. revert counts.
  induction Hjs as [|j js [st Hst] _ IH]; intros counts Hkeys.
  - exists counts. split; [done|]. intros state.
    destruct (Hkeys state) as [n ->]. cbn. f_equal. lia.
  - destruct (Hkeys st) as [n Hn].
    assert (Hstep : Storage.count_job counts (Job.to_dict j) w
                    = (inr (<[JobState_value st := n + 1]> counts), w)).
    { unfold Storage.count_job, Job.subscript.
      destruct (to_dict_lookups j) as (_ & _ & -> & _).
      run_st. by rewrite Hst, Hn. }
    destruct (IH (<[JobState_value st := n + 1]> counts))
      as (counts' & Heq & Hcounts).
    { intros state'. rewrite lookup_insert. case_decide; eauto. }
    exists counts'. split.
    + cbn [fmap list_fmap Storage.count_jobs].
      rewrite (bind_returns _ _ _ _ _ Hstep). exact Heq.
    + intros state. rewrite Hcounts, lookup_insert.
      destruct (decide (JobState_value st = JobState_value state)) as [Heqs|Hne].
      * rewrite filter_cons_True by congruence.
        rewrite <- Heqs, Hn. cbn. f_equal. lia.
      * rewrite filter_cons_False by congruence. done.
Qed.

(** X8.  The counts agree with the listings: on a well-formed file whose
    records all carry one of the five states, the number [get_job_counts]
    gives for a state is the number of jobs [get_jobs_by_state] lists for it,
    and [get_status] reports these counts together with the registry and its
    length, changing neither file. *)
Theorem counts_agree_with_listings w (registry : Workers) :
  jobs_wf (jobs_json w) →
  Forall has_valid_state (Storage.dict_values (jobs_json w)) →
  ∃ counts,
    returns Storage.get_job_counts w counts w ∧
    (∀ state, ∃ listed,
       returns (Storage.get_jobs_by_state state) w listed w ∧
       counts !! JobState_value state = Some (Z.of_nat (length listed))) ∧
    returns QueueManager.get_status (w, registry)
      {| QueueManager.job_counts := counts;
         QueueManager.active_workers := Z.of_nat (length registry);
         QueueManager.workers := registry |} (w, registry).
Proof.
  intros Hwf Hvalid.
  destruct (jobs_wf_objects _ Hwf) as (js & Hjobs & Hjs).
  rewrite Hjobs, dict_values_objects in Hvalid.
  assert (Hstates : Forall (λ j, ∃ state, Job.state j = JobState_value state)
                           js).
  { apply Forall_forall. intros j Hj.
    rewrite Forall_forall in Hvalid.
    destruct (Hvalid (Job.to_dict j)) as [st Hst].
    { apply list_elem_of_fmap. by exists j. }
    destruct (to_dict_lookups j) as (_ & _ & L & _).
    rewrite L in Hst. exists st. congruence. }
  destruct (count_jobs_objects js Storage.zero_counts w Hstates)
    as (counts & Heq & Hcounts).
  { intros []; by eexists. }
  assert (Hrun : Storage.get_job_counts w = (inr counts, w)).
  { unfold Storage.get_job_counts, Storage._read_jobs.
    unfold mbind, ST_bind. by rewrite Hjobs, dict_values_objects. }
  exists counts. split; [done|]. split.
  - intros state. eexists. split.
    + by apply (get_jobs_by_state_objects state js).
    + rewrite Hcounts. by destruct state.
  - unfold returns, QueueManager.get_status, in_world, in_workers,
      Storage.get_workers, Storage._read_workers.
    unfold mbind at 1. unfold ST_bind. rewrite Hrun. by run_st.
Qed.

Lemma counts_agree_with_listings_witness :
  ∃ counts listed,
    returns Storage.get_job_counts
            (sample_world (file_of [dead_job; failed_job]) ∅) counts
            (sample_world (file_of [dead_job; failed_job]) ∅) ∧
    returns (Storage.get_jobs_by_state DEAD)
            (sample_world (file_of [dead_job; failed_job]) ∅) listed
            (sample_world (file_of [dead_job; failed_job]) ∅) ∧
    counts !! "dead" = Some (Z.of_nat (length listed)).
Proof.
  destruct (counts_agree_with_listings
              (sample_world (file_of [dead_job; failed_job]) ∅) [])
    as (counts & Hcounts & Hlist & _).
  { split.
    - cbn. apply NoDup_cons. split.
      + intros Hin%list_elem_of_singleton. discriminate.
      + apply NoDup_singleton.
    - repeat constructor.
      + exists dead_job. split; [repeat split; discriminate | reflexivity].
      + exists failed_job. split; [repeat split; discriminate | reflexivity]. }
  { repeat constructor; [by exists DEAD | by exists FAILED]. }
  destruct (Hlist DEAD) as (listed & Hlisted & Hn).
  exists counts, listed. split; [exact Hcounts|]. split; [exact Hlisted|].
  exact Hn.
Defined.

(** X9.  One record with a state outside the five names breaks the counts:
    when the records before it are valid, [get_job_counts] raises
    [KeyError] with that state, and so does [get_status]; neither file is
    changed. *)
Theorem unknown_state_breaks_counts w (registry : Workers)
    (before after : list Dict) (job_data : Dict) state :
  Storage.dict_values (jobs_json w) = before ++ job_data :: after →
  Forall has_valid_state before →
  job_data !! "state" = Some (VStr state) →
  state ∉ state_names →
  raises Storage.get_job_counts w (KeyError (VStr state)) w ∧
  raises QueueManager.get_status (w, registry) (KeyError (VStr state))
         (w, registry).
Proof.
  intros Hfile Hbefore Hstate Hunknown.
  assert (Hrun : Storage.get_job_counts w = (inl (KeyError (VStr state)), w)).
  { unfold Storage.get_job_counts, Storage._read_jobs.
    unfold mbind, ST_bind. rewrite Hfile.
    assert (Hgen : ∀ counts : gmap string Z,
              (∀ st, is_Some (counts !! JobState_value st)) →
              dom counts = state_names →
              Storage.count_jobs counts (before ++ job_data :: after) w
              = (inl (KeyError (VStr state)), w)).
    { clear Hfile. induction Hbefore as [|d ds [st Hst] _ IH];
        intros counts Hkeys Hdom.
      - cbn [app Storage.count_jobs].
        unfold Storage.count_job, Job.subscript. rewrite Hstate. run_st.
        assert (Hnone : counts !! state = None).
        { apply not_elem_of_dom. by rewrite Hdom. }
        by rewrite Hnone.
      - destruct (Hkeys st) as [n Hn].
        cbn [app Storage.count_jobs].
        assert (Hstep : Storage.count_job counts d w
                        = (inr (<[JobState_value st := n + 1]> counts), w)).
        { unfold Storage.count_job, Job.subscript. rewrite Hst. run_st.
          by rewrite Hn. }
        rewrite (bind_returns _ _ _ _ _ Hstep). apply IH.
        + intros st'. rewrite lookup_insert. case_decide; eauto.
        + rewrite <- Hdom. apply dom_insert_lookup_L. eauto. }
    apply Hgen; [intros []; by eexists | reflexivity]. }
  split; [done|].
  unfold raises, QueueManager.get_status, in_world.
  unfold mbind at 1. unfold ST_bind. by rewrite Hrun.
Qed.

Lemma unknown_state_breaks_counts_witness :
  raises Storage.get_job_counts
    (sample_world
       (file_of [dead_job; sample_job "job-5" "exit 0" "running" 0 3 None None])
       ∅)
    (KeyError (VStr "running"))
    (sample_world
       (file_of [dead_job; sample_job "job-5" "exit 0" "running" 0 3 None None])
       ∅).
Proof.
  apply (unknown_state_breaks_counts _ []
           [Job.to_dict dead_job] []
           (Job.to_dict (sample_job "job-5" "exit 0" "running" 0 3 None None))
           "running").
  - reflexivity.
  - repeat constructor. by exists DEAD.
  - reflexivity.
  - vm_compute. intros H. discriminate H.
Defined.

(** ** storage.py: the worker registry *)

(** X10.  The registry is a plain list: [register_worker] appends an entry
    (it never checks for an id that is already there), [unregister_worker]
    removes every entry with the id and keeps the others in order, so that
    afterwards the id is not registered; registering a new id and
    unregistering it gives back the registry as it was, and [clear_workers]
    empties it. *)
Theorem registry_register_unregister (registry : Workers) id pid :
  let entry := {| worker_id := id; pid := pid |} in
  returns (Storage.register_worker id pid) registry tt (registry ++ [entry]) ∧
  returns Storage.get_workers (registry ++ [entry]) (registry ++ [entry])
          (registry ++ [entry]) ∧
  (∃ registry',
     returns (Storage.unregister_worker id) (registry ++ [entry]) tt registry' ∧
     registry' = filter (λ w, worker_id w ≠ id) registry ∧
     (id ∉ worker_id <$> registry') ∧
     (∀ w, worker_id w ≠ id → (w ∈ registry' ↔ w ∈ registry)) ∧
     ((id ∉ worker_id <$> registry) → registry' = registry)) ∧
  returns Storage.clear_workers registry tt [].
Proof.
  cbn zeta. split; [done|]. split; [done|]. split; [|done].
  assert (Heq : filter (λ w, worker_id w ≠ id)
                       (registry ++ [{| worker_id := id; pid := pid |}])
                = filter (λ w, worker_id w ≠ id) registry).
  { rewrite filter_app. rewrite filter_cons_False by (cbn; auto).
    rewrite filter_nil. apply app_nil_r. }
  exists (filter (λ w, worker_id w ≠ id) registry).
  split.
  { unfold returns, Storage.unregister_worker, Storage._read_workers,
      Storage._write_workers. run_st. by rewrite Heq. }
  split; [done|]. split; [|split].
  - intros (w & Hid & Hin)%list_elem_of_fmap.
    apply list_elem_of_filter in Hin as [Hne _]. by apply Hne.
  - intros w Hne. rewrite list_elem_of_filter. tauto.
  - intros Hnew. induction registry as [|w ws IH]; [done|].
    rewrite fmap_cons in Hnew.
    apply not_elem_of_cons in Hnew as [Hne Hnew].
    rewrite filter_cons_True by (cbn; congruence). f_equal.
    apply IH; [|done].
    rewrite filter_app. rewrite filter_cons_False by (cbn; auto).
    rewrite filter_nil. apply app_nil_r.
Qed.

Lemma registry_register_unregister_witness :
  returns (Storage.register_worker "w-2" 4242 ≫= λ _,
           Storage.unregister_worker "w-2")
          [{| worker_id := "w-1"; pid := 4001 |}] tt
          [{| worker_id := "w-1"; pid := 4001 |}].
Proof.
  destruct (registry_register_unregister
              [{| worker_id := "w-1"; pid := 4001 |}] "w-2" 4242)
    as (Hreg & _ & (registry' & Hunreg & _ & _ & _ & Hsame) & _).
  rewrite Hsame in Hunreg.
  - unfold returns. rewrite (bind_returns _ _ _ _ _ Hreg). exact Hunreg.
  - cbn. intros Hin%list_elem_of_singleton. discriminate.
Defined.

(** ** config.py *)

Lemma config_get_eq key w :
  Config.get key w =
    (inr (match config_json w !! key with
          | Some v => Some v
          | None => Config.DEFAULT_CONFIG !! key
          end), w).
Proof. reflexivity. Qed.

(** X11.  [Config.set] then [Config.get] gives the value back and leaves the
    reading of every other key, and the jobs file, as they were.  A key that
    is not in the file reads as its default (3, 2 and 1 for the three known
    keys) and as [None] when it has none.  The setting is read afresh by the
    next call: after [set('max_retries', m)] an [enqueue] without
    [max_retries] creates a job with [max_retries = m]. *)
Theorem config_set_then_get key value w :
  ∃ w',
    returns (Config.set key value) w tt w' ∧
    returns (Config.get key) w' (Some value) w' ∧
    jobs_json w' = jobs_json w ∧
    (∀ other, other ≠ key →
       ∃ v, returns (Config.get other) w v w ∧
            returns (Config.get other) w' v w') ∧
    (∀ other, config_json w !! other = None →
       returns (Config.get other) w (Config.DEFAULT_CONFIG !! other) w) ∧
    (key = "max_retries" →
     ∀ command job_id, ∃ job w'',
       returns (QueueManager.enqueue command job_id None) w' job w'' ∧
       Job.max_retries job = value).
Proof.
  eexists. split; [reflexivity|].
  split; [|split; [done|split; [|split]]].
  - unfold returns, Config.get, Config._read_config. run_st.
    by rewrite lookup_insert_eq.
  - intros other Hne. eexists. split; [reflexivity|].
    unfold returns, Config.get, Config._read_config. run_st.
    by rewrite lookup_insert_ne.
  - intros other Hnone. unfold returns, Config.get, Config._read_config.
    run_st. by rewrite Hnone.
  - intros -> command job_id.
    match goal with
    | |- ∃ job w'', returns _ ?w1 _ _ ∧ _ =>
        destruct (enqueue_spec command job_id None w1)
          as (job & w'' & dflt & Hrun & Hget & Hmax & _)
    end.
    exists job, w''. split; [exact Hrun|].
    rewrite config_get_eq in Hget. cbn [config_json] in Hget.
    rewrite lookup_insert_eq in Hget.
    injection Hget as <-. exact Hmax.
Qed.

Lemma config_set_then_get_witness :
  returns (Config.get "backoff_base") (sample_world [] ∅) (Some 2)
          (sample_world [] ∅) ∧
  returns (Config.get "verbose") (sample_world [] ∅) None
          (sample_world [] ∅) ∧
  ∃ w' job w'',
    returns (Config.set "max_retries" 7) (sample_world [] ∅) tt w' ∧
    returns (QueueManager.enqueue "exit 1" None None) w' job w'' ∧
    Job.max_retries job = 7.
Proof.
  destruct (config_set_then_get "max_retries" 7 (sample_world [] ∅))
    as (w' & Hset & _ & _ & _ & Hdflt & Henq).
  split; [exact (Hdflt "backoff_base" eq_refl)|].
  split; [exact (Hdflt "verbose" eq_refl)|].
  destruct (Henq eq_refl "exit 1" None) as (job & w'' & Hrun & Hmax).
  exists w', job, w''. split; [exact Hset|]. split; [exact Hrun | exact Hmax].
Defined.

(** ** queue_manager.py: enqueue and the file *)

Lemma dict_set_new jobs k v :
  Storage.dict_get jobs k = None → Storage.dict_set jobs k v = jobs ++ [(k, v)].
Proof.
  induction jobs as [|[k0 v0] jobs IH]; cbn; [done|].
  destruct (decide (k0 = k)); [done|]. intros H. by rewrite IH.
Qed.

Lemma dict_get_None_keys jobs k :
  Storage.dict_get jobs k = None ↔ k ∉ jobs.*1.
Proof.
  induction jobs as [|[k0 v0] jobs IH]; cbn.
  - split; [intros _; apply not_elem_of_nil | done].
  - destruct (decide (k0 = k)) as [->|Hne].
    + split; [done|]. intros Hnin. exfalso. apply Hnin.
      apply elem_of_cons. by left.
    + rewrite IH. rewrite not_elem_of_cons. split; [by split|]. by intros [_ ?].
Qed.

(** The job objects behind a well-formed file are themselves well formed. *)
Lemma file_of_wf jobs :
  jobs_wf (file_of jobs) → Forall Job_wf jobs.
Proof.
  intros [_ Hall]. apply Forall_forall. intros j Hj.
  rewrite Forall_forall in Hall.
  destruct (Hall (Job.id j, Job.to_dict j)) as (j' & Hwf & Heq).
  { apply list_elem_of_fmap. by exists j. }
  apply (f_equal snd) in Heq. cbn [snd] in Heq.
  apply to_dict_inj in Heq. by subst j'.
Qed.

(** X12.  [enqueue] never rejects an id and never looks at what is filed
    under it: when the id it uses is already in the file, the record there
    is replaced in place by the new pending job (attempts 0, no error, no
    output) and the list of ids is unchanged; when the id is new, the job is
    added at the end of the file and, on a well-formed file, becomes the
    last job of the pending listing. *)
Theorem enqueue_replaces_or_appends command job_id max_retries w :
  ∃ job w',
    returns (QueueManager.enqueue command job_id max_retries) w job w' ∧
    stored (jobs_json w') (Job.id job) job ∧
    Job.state job = "pending" ∧ Job.attempts job = 0%N ∧
    Job.last_error job = None ∧ Job.output job = None ∧
    (Job.id job ∈ (jobs_json w).*1 → (jobs_json w').*1 = (jobs_json w).*1) ∧
    (Job.id job ∉ (jobs_json w).*1 →
     jobs_json w' = jobs_json w ++ [(Job.id job, Job.to_dict job)] ∧
     ∀ jobs, jobs_wf (jobs_json w) → jobs_json w = file_of jobs →
       returns (Storage.get_jobs_by_state PENDING) w'
         (filter (λ j, Job.state j = "pending") jobs ++ [job]) w').
Proof.
  destruct (enqueue_spec command job_id max_retries w)
    as (job & w' & dflt & Hrun & _ & _ & Hwf & _ & Hst & Hatt & Herr & Hout
        & _ & Hjobs & _).
  exists job, w'. split; [done|].
  split. { unfold stored. rewrite Hjobs. apply dict_get_set_eq. }
  repeat split; try done.
  - intros Hin. rewrite Hjobs, dict_set_keys. by rewrite decide_True.
  - rewrite Hjobs. apply dict_set_new. by apply dict_get_None_keys.
  - intros jobs Hfile Heq.
    assert (Hnew : jobs_json w' = file_of (jobs ++ [job])).
    { rewrite Hjobs, dict_set_new by by apply dict_get_None_keys.
      rewrite Heq. unfold file_of. by rewrite fmap_app. }
    rewrite Heq in Hfile. apply file_of_wf in Hfile.
    unfold returns.
    rewrite (get_jobs_by_state_objects PENDING (jobs ++ [job])).
    + rewrite filter_app. rewrite (filter_cons_True _ job) by done.
      by rewrite filter_nil.
    + apply Forall_app. split; [done|]. by apply Forall_singleton.
    + done.
Qed.

Lemma enqueue_replaces_or_appends_witness :
  ∃ job w',
    returns (QueueManager.enqueue "echo hi" (Some "job-1") None)
            (sample_world (file_of [dead_job; failed_job]) ∅) job w' ∧
    stored (jobs_json w') "job-1" job ∧ Job.attempts job = 0%N ∧
    Job.state job = "pending" ∧
    (jobs_json w').*1 = ["job-1"; "job-2"].
Proof.
  destruct (enqueue_replaces_or_appends "echo hi" (Some "job-1") None
              (sample_world (file_of [dead_job; failed_job]) ∅))
    as (job & w' & Hrun & Hst & Hstate & Hatt & _ & _ & Hold & _).
  assert (Hid : Job.id job = "job-1").
  { unfold returns in Hrun. vm_compute in Hrun.
    injection Hrun as <- _. reflexivity. }
  exists job, w'. rewrite Hid in *.
  split; [exact Hrun|]. split; [exact Hst|]. split; [exact Hatt|].
  split; [exact Hstate|].
  apply Hold. cbn. apply elem_of_cons. by left.
Defined.

(** ** worker.py: claiming *)

Lemma first_to_retry_find failed_jobs w :
  Worker.first_to_retry failed_jobs w
    = (inr (List.find Job.should_retry failed_jobs), w).
Proof.
  induction failed_jobs as [|job rest IH]; cbn; [done|].
  destruct (Job.should_retry job); [|done].
  unfold Config.get, Config._read_config, Config.as_int. run_st.
  by destruct (config_json w !! "backoff_base").
Qed.

(** What [_get_next_job] returns and writes, exactly. *)
Lemma get_next_job_exact w jobs :
  jobs_wf (jobs_json w) → jobs_json w = file_of jobs →
  match filter (λ j, Job.state j = "pending") jobs with
  | job :: _ =>
      let claimed :=
        {| Job.id := Job.id job; Job.command := Job.command job;
           Job.state := "processing"; Job.attempts := Job.attempts job;
           Job.max_retries := Job.max_retries job;
           Job.created_at := Job.created_at job;
           Job.updated_at := utcnow_isoformat (oracle w) (ticks w) +:+ "Z";
           Job.last_error := Job.last_error job;
           Job.output := Job.output job |} in
      ∃ w', Worker._get_next_job w = (inr (Some claimed), w') ∧
            stored (jobs_json w) (Job.id job) job ∧
            jobs_json w' =
              Storage.dict_set (jobs_json w) (Job.id job)
                               (Job.to_dict claimed) ∧
            config_json w' = config_json w ∧ oracle w' = oracle w ∧
            runs w' = runs w ∧ sleep_log w' = sleep_log w
  | [] =>
      Worker._get_next_job w =
        (inr (List.find Job.should_retry
                        (filter (λ j, Job.state j = "failed") jobs)), w)
  end.
Proof.
  intros Hwf Hfile. pose proof Hwf as [Hnd _].
  rewrite Hfile in Hwf. apply file_of_wf in Hwf.
  assert (Hlist : Storage.get_jobs_by_state PENDING w
                  = (inr (filter (λ j, Job.state j = "pending") jobs), w)).
  { by apply (get_jobs_by_state_objects PENDING jobs). }
  destruct (filter _ jobs) as [|job rest] eqn:Hpending.
  - unfold Worker._get_next_job.
    rewrite (bind_returns _ _ _ _ _ Hlist).
    rewrite (bind_returns _ _ _ _ _
               (get_jobs_by_state_objects FAILED jobs w Hwf Hfile)).
    apply first_to_retry_find.
  - assert (Hj : job ∈ filter (λ j, Job.state j = "pending") jobs).
    { rewrite Hpending. apply elem_of_cons. by left. }
    apply list_elem_of_filter in Hj as [_ Hj].
    cbn zeta. unfold Worker._get_next_job.
    rewrite (bind_returns _ _ _ _ _ Hlist).
    eexists. split; [reflexivity|].
    split; [|done].
    apply (objects_stored jobs); [done|done|done].
Qed.

(** X13.  On a well-formed file [_get_next_job] prefers pending jobs: if
    there is one, it claims the first in file order, returning it with state
    [processing] (and a new [updated_at], nothing else changed) after filing
    that record under the same id; no other entry changes.  Only when no job
    is pending does it look at the failed ones, and then it returns the
    first with [attempts < max_retries] as it is, or [None], writing
    nothing. *)
Theorem get_next_job_claims_first_pending w jobs :
  jobs_wf (jobs_json w) → jobs_json w = file_of jobs →
  match filter (λ j, Job.state j = "pending") jobs with
  | job :: _ =>
      let claimed :=
        {| Job.id := Job.id job; Job.command := Job.command job;
           Job.state := "processing"; Job.attempts := Job.attempts job;
           Job.max_retries := Job.max_retries job;
           Job.created_at := Job.created_at job;
           Job.updated_at := utcnow_isoformat (oracle w) (ticks w) +:+ "Z";
           Job.last_error := Job.last_error job;
           Job.output := Job.output job |} in
      ∃ w', returns Worker._get_next_job w (Some claimed) w' ∧
            stored (jobs_json w) (Job.id job) job ∧
            stored (jobs_json w') (Job.id job) claimed ∧
            (jobs_json w').*1 = (jobs_json w).*1 ∧
            ∀ other, other ≠ Job.id job →
              Storage.dict_get (jobs_json w') other =
                Storage.dict_get (jobs_json w) other
  | [] =>
      returns Worker._get_next_job w
        (List.find Job.should_retry
                   (filter (λ j, Job.state j = "failed") jobs)) w
  end.
Proof.
  intros Hwf Hfile. pose proof (get_next_job_exact w jobs Hwf Hfile) as Hexact.
  destruct (filter _ jobs) as [|job rest]; [done|].
  cbn zeta in *. destruct Hexact as (w' & Hrun & Hst & Hjobs & _).
  exists w'. split; [done|]. split; [done|]. split; [|split].
  - unfold stored. rewrite Hjobs. apply dict_get_set_eq.
  - rewrite Hjobs, dict_set_keys. rewrite decide_True; [done|].
    apply dict_get_Some_elem in Hst.
    apply list_elem_of_fmap. by eexists (_, _).
  - intros other Hne. rewrite Hjobs. by apply dict_get_set_ne.
Qed.

Lemma get_next_job_claims_first_pending_witness :
  returns Worker._get_next_job
          (sample_world (file_of [dead_job; failed_job]) ∅)
          (Some failed_job)
          (sample_world (file_of [dead_job; failed_job]) ∅) ∧
  returns Worker._get_next_job
          (sample_world (file_of [dead_job]) ∅) None
          (sample_world (file_of [dead_job]) ∅).
Proof.
  split.
  - apply (get_next_job_claims_first_pending
             (sample_world (file_of [dead_job; failed_job]) ∅)
             [dead_job; failed_job]); [|reflexivity].
    split.
    + cbn. apply NoDup_cons. split.
      * intros Hin%list_elem_of_singleton. discriminate.
      * apply NoDup_singleton.
    + repeat constructor.
      * exists dead_job. split; [repeat split; discriminate | reflexivity].
      * exists failed_job. split; [repeat split; discriminate | reflexivity].
  - apply (get_next_job_claims_first_pending
             (sample_world (file_of [dead_job]) ∅) [dead_job]); [|reflexivity].
    split.
    + apply NoDup_singleton.
    + repeat constructor.
      exists dead_job. split; [repeat split; discriminate | reflexivity].
Defined.

(** ** worker.py: executing *)

Ltac unfold_process_job :=
  unfold Worker.process_job_body, try_finally, try_except, Worker.the_job,
    Worker.lift, Worker.on_job, run_subprocess, Storage.save_job,
    Storage._read_jobs, Storage._write_jobs;
  run_st.

(** What [_process_job] does with a failed execution when the backoff
    sleep, if one is due, returns. *)
Lemma process_failure_spec job w error :
  let n := (Job.attempts job + 1)%N in
  match subprocess_run (oracle w) (runs w) (Job.command job) with
  | RunReturned result =>
      returncode result ≠ 0 ∧
      error = (if truthy (stderr result) then stderr result
               else "Command exited with code " +:+ pretty (returncode result))
  | RunTimedOut => error = "Job timed out"
  | RunRaised msg => error = msg
  end →
  (∀ base, returns (Config.get "backoff_base") w (Some base) w →
     Z.of_N n < Job.max_retries job →
     sleep_raises (oracle w) (length (sleep_log w)) (base ^ Z.of_N n) = None) →
  ∃ base job' w',
    Config.get "backoff_base" w = (inr (Some base), w) ∧
    Worker.process_job_body (job, w) = (inr tt, (job', w')) ∧
    Job.id job' = Job.id job ∧ Job.command job' = Job.command job ∧
    Job.max_retries job' = Job.max_retries job ∧
    Job.created_at job' = Job.created_at job ∧ Job.updated_at job' ≠ "" ∧
    Job.attempts job' = n ∧
    Job.last_error job' =
      (if truthy error then Some error else Job.last_error job) ∧
    Job.state job' =
      (if bool_decide (Z.of_N n < Job.max_retries job) then "pending"
       else "dead") ∧
    Job.output job' = Job.output job ∧
    jobs_json w' =
      Storage.dict_set (jobs_json w) (Job.id job) (Job.to_dict job') ∧
    oracle w' = oracle w ∧ config_json w' = config_json w ∧
    sleep_log w' =
      (if bool_decide (Z.of_N n < Job.max_retries job)
       then sleep_log w ++ [base ^ Z.of_N n] else sleep_log w).
Proof.
  intros n Hout Hquiet.
  pose (base := default 2 (config_json w !! "backoff_base")).
  assert (Hbase0 : Config.get "backoff_base" w = (inr (Some base), w)).
  { rewrite config_get_eq. subst base.
    by destruct (config_json w !! "backoff_base"). }
  exists base.
  assert (Hhandle : ∀ w1,
            oracle w1 = oracle w → sleep_log w1 = sleep_log w →
            config_json w1 = config_json w →
            ∃ job' w',
              Worker._handle_job_failure error (job, w1) = (inr tt, (job', w')) ∧
              Job.id job' = Job.id job ∧ Job.command job' = Job.command job ∧
              Job.max_retries job' = Job.max_retries job ∧
              Job.created_at job' = Job.created_at job ∧
              Job.updated_at job' ≠ "" ∧
              Job.attempts job' = n ∧
              Job.last_error job' =
                (if truthy error then Some error else Job.last_error job) ∧
              Job.state job' =
                (if bool_decide (Z.of_N n < Job.max_retries job) then "pending"
                 else "dead") ∧
              Job.output job' = Job.output job ∧
              jobs_json w' = jobs_json w1 ∧ oracle w' = oracle w ∧
              config_json w' = config_json w ∧
              sleep_log w' =
                (if bool_decide (Z.of_N n < Job.max_retries job)
                 then sleep_log w ++ [base ^ Z.of_N n] else sleep_log w)).
  { intros w1 Ho Hl Hc.
    destruct (handle_job_failure_spec error job w1)
      as (base' & r & job' & w' & Hbase & Heq & Hid & Hcmd & Hmax & Hcr & Hup
          & Houtp & Hatt & Herr & Hjobs & Hcfg & Horacle & _ & Hcase).
    rewrite config_get_eq, Hc in Hbase. rewrite config_get_eq in Hbase0.
    assert (base' = base) as -> by congruence.
    assert (Hbase' : returns (Config.get "backoff_base") w (Some base) w).
    { unfold returns. by rewrite config_get_eq. }
    cbn in Hcase. fold n in Hcase. rewrite Ho, Hl in Hcase.
    exists job', w'. case_bool_decide.
    - rewrite (Hquiet base Hbase') in Hcase by done.
      destruct Hcase as (Hlog & -> & Hst).
      repeat split; try done; congruence.
    - destruct Hcase as (-> & Hst & Hlog).
      repeat split; try done; congruence. }
  unfold_process_job.
  destruct (subprocess_run _ _ _) as [res| |msg]; cbn.
  - destruct Hout as [Hrc ->]. rewrite decide_False by done. cbn.
    match goal with
    | |- context [Worker._handle_job_failure _ (job, ?w1)] =>
        destruct (Hhandle w1 eq_refl eq_refl eq_refl)
          as (job' & w' & -> & Hid & Hcmd & Hmax & Hcr & Hup & Hatt & Herr
              & Hst & Houtp & Hjobs & Ho & Hc & Hlog)
    end.
    cbn. exists job'. eexists. split; [done|]. split; [reflexivity|].
    cbn. rewrite Hjobs, Hid. by repeat split.
  - subst error.
    match goal with
    | |- context [Worker._handle_job_failure _ (job, ?w1)] =>
        destruct (Hhandle w1 eq_refl eq_refl eq_refl)
          as (job' & w' & -> & Hid & Hcmd & Hmax & Hcr & Hup & Hatt & Herr
              & Hst & Houtp & Hjobs & Ho & Hc & Hlog)
    end.
    cbn. exists job'. eexists. split; [done|]. split; [reflexivity|].
    cbn. rewrite Hjobs, Hid. by repeat split.
  - subst error.
    match goal with
    | |- context [Worker._handle_job_failure _ (job, ?w1)] =>
        destruct (Hhandle w1 eq_refl eq_refl eq_refl)
          as (job' & w' & -> & Hid & Hcmd & Hmax & Hcr & Hup & Hatt & Herr
              & Hst & Houtp & Hjobs & Ho & Hc & Hlog)
    end.
    cbn. exists job'. eexists. split; [done|]. split; [reflexivity|].
    cbn. rewrite Hjobs, Hid. by repeat split.
Qed.

(** X14.  A failed execution is recorded on the job.  The message is the
    command's stderr, or "Command exited with code N" when stderr is empty,
    for a non-zero exit; "Job timed out" for a timeout; the exception's text
    for any other error.  Provided the backoff sleep, if one is due, returns,
    [_process_job] then returns normally with [attempts] one higher, that
    message in [last_error] (unless it is empty), the output untouched, the
    state [pending] if attempts is still below [max_retries] and [dead]
    otherwise, and the job saved. *)
Theorem failed_execution_is_recorded job w error :
  let n := (Job.attempts job + 1)%N in
  match subprocess_run (oracle w) (runs w) (Job.command job) with
  | RunReturned result =>
      returncode result ≠ 0 ∧
      error = (if truthy (stderr result) then stderr result
               else "Command exited with code " +:+ pretty (returncode result))
  | RunTimedOut => error = "Job timed out"
  | RunRaised msg => error = msg
  end →
  (∀ base, returns (Config.get "backoff_base") w (Some base) w →
     Z.of_N n < Job.max_retries job →
     sleep_raises (oracle w) (length (sleep_log w)) (base ^ Z.of_N n) = None) →
  ∃ job' w',
    returns Worker.process_job_body (job, w) tt (job', w') ∧
    Job.attempts job' = n ∧
    Job.last_error job' =
      (if truthy error then Some error else Job.last_error job) ∧
    Job.state job' =
      (if bool_decide (Z.of_N n < Job.max_retries job) then "pending"
       else "dead") ∧
    Job.output job' = Job.output job ∧
    stored (jobs_json w') (Job.id job) job'.
Proof.
  intros n Hout Hquiet.
  destruct (process_failure_spec job w error Hout Hquiet)
    as (base & job' & w' & _ & Hrun & Hid & _ & _ & _ & _ & Hatt & Herr & Hst
        & Houtp & Hjobs & _).
  exists job', w'. repeat split; try done.
  unfold stored. rewrite Hjobs. apply dict_get_set_eq.
Qed.

Lemma failed_execution_is_recorded_witness :
  ∃ job' w',
    returns Worker.process_job_body
            (sample_job "job-8" "false" "processing" 2 3 None None,
             sample_world [] ∅) tt (job', w') ∧
    Job.attempts job' = 3%N ∧
    Job.last_error job' = Some "Command exited with code 1" ∧
    Job.state job' = "dead".
Proof.
  destruct (failed_execution_is_recorded
              (sample_job "job-8" "false" "processing" 2 3 None None)
              (sample_world [] ∅) "Command exited with code 1")
    as (job' & w' & Hrun & Hatt & Herr & Hst & _).
  - split; [discriminate | reflexivity].
  - intros base _ Hlt. vm_compute in Hlt. discriminate Hlt.
  - exists job', w'. split; [exact Hrun|]. split; [exact Hatt|].
    split; [exact Herr | exact Hst].
Defined.

(** The handler either returns, leaving the job pending or dead, or raises
    the sleep's exception, leaving it failed. *)
Lemma handle_job_failure_outcome error job w :
  ∃ r job' w',
    Worker._handle_job_failure error (job, w) = (r, (job', w')) ∧
    Job.id job' = Job.id job ∧ Job.command job' = Job.command job ∧
    Job.max_retries job' = Job.max_retries job ∧
    Job.created_at job' = Job.created_at job ∧
    Job.attempts job' = (Job.attempts job + 1)%N ∧
    Job.last_error job' =
      (if truthy error then Some error else Job.last_error job) ∧
    jobs_json w' = jobs_json w ∧
    ((r = inr tt ∧ (Job.state job' = "pending" ∨ Job.state job' = "dead")) ∨
     (∃ msg, r = inl (Raised msg) ∧ Job.state job' = "failed")).
Proof.
  destruct (handle_job_failure_spec error job w)
    as (base & r & job' & w' & _ & Heq & Hid & Hcmd & Hmax & Hcr & _ & _
        & Hatt & Herr & Hjobs & _ & _ & _ & Hcase).
  exists r, job', w'. repeat split; try done.
  cbn in Hcase. case_bool_decide.
  - destruct Hcase as [_ Hcase].
    destruct (sleep_raises _ _ _) as [msg|]; destruct Hcase as [-> Hst].
    + right. by exists msg.
    + left. auto.
  - destruct Hcase as (-> & Hst & _). left. auto.
Qed.

(** X15.  One failed execution can cost two attempts.  When the command
    exits with a non-zero status, a retry is due, and the backoff sleep
    raises (as [time.sleep] does on a negative delay), the exception is
    caught by the [except Exception] clause of the same [try], which calls
    the failure handler a second time: the job is saved with [attempts]
    raised by two, and the sleep's message replaces the command's error in
    [last_error]. *)
Theorem sleep_error_counts_a_second_attempt job w result base msg :
  subprocess_run (oracle w) (runs w) (Job.command job) = RunReturned result →
  returncode result ≠ 0 →
  returns (Config.get "backoff_base") w (Some base) w →
  Z.of_N (Job.attempts job + 1) < Job.max_retries job →
  sleep_raises (oracle w) (length (sleep_log w))
               (base ^ Z.of_N (Job.attempts job + 1)) = Some msg →
  msg ≠ "" →
  ∃ r job' w',
    Worker.process_job_body (job, w) = (r, (job', w')) ∧
    Job.attempts job' = (Job.attempts job + 2)%N ∧
    Job.last_error job' = Some msg ∧
    stored (jobs_json w') (Job.id job) job'.
Proof.
  intros Hrun Hrc Hbase Hlt Hsleep Hmsg.
  unfold_process_job. rewrite Hrun. cbn. rewrite decide_False by done. cbn.
  match goal with
  | |- context [Worker._handle_job_failure ?e (job, ?w1)] =>
      destruct (handle_job_failure_spec e job w1)
        as (base' & r1 & job1 & w1' & Hbase1 & Heq1 & Hid1 & _ & Hmax1 & _ & _
            & _ & Hatt1 & _ & Hjobs1 & _ & _ & _ & Hcase)
  end.
  rewrite config_get_eq in Hbase1. cbn [config_json] in Hbase1.
  unfold returns in Hbase. rewrite config_get_eq in Hbase.
  assert (base' = base) as -> by congruence.
  cbn in Hcase. rewrite bool_decide_true in Hcase by done.
  rewrite Hsleep in Hcase. destruct Hcase as (_ & -> & _).
  rewrite Heq1. cbn.
  destruct (handle_job_failure_outcome msg job1 w1')
    as (r2 & job2 & w2 & Heq2 & Hid2 & _ & _ & _ & Hatt2 & Herr2 & Hjobs2 & _).
  rewrite Heq2. cbn.
  exists r2, job2. eexists. split; [by destruct r2 as [|[]]|].
  split; [lia|]. split.
  - by rewrite Herr2, truthy_ne.
  - unfold stored. destruct r2 as [|[]]; cbn; rewrite Hid2, Hid1;
      apply dict_get_set_eq.
Qed.

Lemma sleep_error_counts_a_second_attempt_witness :
  ∃ r job' w',
    Worker.process_job_body
      (sample_job "job-8" "false" "processing" 0 3 None None,
       sample_world [] {[ "backoff_base" := -1 ]}) = (r, (job', w')) ∧
    Job.attempts job' = 2%N ∧
    Job.last_error job' = Some "sleep length must be non-negative".
Proof.
  destruct (sleep_error_counts_a_second_attempt
              (sample_job "job-8" "false" "processing" 0 3 None None)
              (sample_world [] {[ "backoff_base" := -1 ]})
              {| returncode := 1; stdout := ""; stderr := "" |} (-1)
              "sleep length must be non-negative")
    as (r & job' & w' & Hrun & Hatt & Herr & _).
  - vm_compute. reflexivity.
  - discriminate.
  - vm_compute. reflexivity.
  - vm_compute. reflexivity.
  - vm_compute. reflexivity.
  - discriminate.
  - exists r, job', w'. split; [exact Hrun|]. split; [exact Hatt | exact Herr].
Defined.

(** What is left after the failure handling of one [try] statement: one
    handler call, or two when the first raised inside the [try] body. *)
Lemma handled_once_or_twice error job w :
  ∃ r job' w',
    (let (r1, s1) := Worker._handle_job_failure error (job, w) in
     match r1 with
     | inl e =>
         match e with
         | TimeoutExpired _ => Worker._handle_job_failure "Job timed out"
         | _ => Worker._handle_job_failure (Exn_str e)
         end s1
     | inr a => (inr a, s1)
     end) = (r, (job', w')) ∧
    Job.id job' = Job.id job ∧ Job.command job' = Job.command job ∧
    Job.max_retries job' = Job.max_retries job ∧
    Job.created_at job' = Job.created_at job ∧
    jobs_json w' = jobs_json w ∧
    ((r = inr tt ∧ (Job.state job' = "pending" ∨ Job.state job' = "dead")) ∨
     (∃ msg, r = inl (Raised msg) ∧ Job.state job' = "failed")).
Proof.
  destruct (handle_job_failure_outcome error job w)
    as (r1 & job1 & w1 & Heq1 & Hid1 & Hcmd1 & Hmax1 & Hcr1 & _ & _ & Hjobs1
        & Hout1).
  rewrite Heq1. destruct Hout1 as [(-> & Hst) | (msg & -> & Hst)].
  - exists (inr tt), job1, w1. repeat split; try done; by left.
  - cbn. destruct (handle_job_failure_outcome msg job1 w1)
      as (r2 & job2 & w2 & Heq2 & Hid2 & Hcmd2 & Hmax2 & Hcr2 & _ & _ & Hjobs2
          & Hout2).
    exists r2, job2, w2. repeat split; congruence.
Qed.

(** X16.  However the execution goes, [_process_job] saves the job under
    its own id and touches no other entry; the job keeps its id, command,
    [max_retries] and [created_at].  If [_process_job] returns, the job is
    completed, pending or dead; if it lets an exception out (the backoff
    sleep's), the job is saved in state [failed].  It is never left in state
    [processing]. *)
Theorem process_job_saves_and_settles job w :
  ∃ r job' w',
    Worker.process_job_body (job, w) = (r, (job', w')) ∧
    Worker._process_job job w = (r, w') ∧
    Job.id job' = Job.id job ∧ Job.command job' = Job.command job ∧
    Job.max_retries job' = Job.max_retries job ∧
    Job.created_at job' = Job.created_at job ∧
    stored (jobs_json w') (Job.id job) job' ∧
    (∀ other, other ≠ Job.id job →
       Storage.dict_get (jobs_json w') other =
         Storage.dict_get (jobs_json w) other) ∧
    ((r = inr tt ∧
      (Job.state job' = "completed" ∨ Job.state job' = "pending" ∨
       Job.state job' = "dead")) ∨
     (∃ msg, r = inl (Raised msg) ∧ Job.state job' = "failed")).
Proof.
  assert (Hbody : ∃ r job' w',
    Worker.process_job_body (job, w) = (r, (job', w')) ∧
    Job.id job' = Job.id job ∧ Job.command job' = Job.command job ∧
    Job.max_retries job' = Job.max_retries job ∧
    Job.created_at job' = Job.created_at job ∧
    jobs_json w' =
      Storage.dict_set (jobs_json w) (Job.id job) (Job.to_dict job') ∧
    ((r = inr tt ∧
      (Job.state job' = "completed" ∨ Job.state job' = "pending" ∨
       Job.state job' = "dead")) ∨
     (∃ msg, r = inl (Raised msg) ∧ Job.state job' = "failed"))).
  { unfold_process_job.
    destruct (subprocess_run _ _ _) as [res| |msg]; cbn.
    - case_decide; cbn.
      + eexists _, _, _. split; [reflexivity|]. cbn.
        repeat split; try done. left. auto.
      + match goal with
        | |- context [Worker._handle_job_failure ?e (job, ?w1)] =>
            destruct (handled_once_or_twice e job w1)
              as (r & job' & w' & Heq & Hid & Hcmd & Hmax & Hcr & Hjobs & Hout)
        end.
        rewrite Heq. cbn. exists r, job'. eexists.
        split; [by destruct r as [|[]]|]. cbn. rewrite Hjobs, Hid. cbn.
        repeat split; try done.
        destruct Hout as [(-> & [Hst|Hst]) | Hfailed]; auto.
    - match goal with
      | |- context [Worker._handle_job_failure ?e (job, ?w1)] =>
          destruct (handle_job_failure_outcome e job w1)
            as (r & job' & w' & Heq & Hid & Hcmd & Hmax & Hcr & _ & _ & Hjobs
                & Hout)
      end.
      rewrite Heq. cbn. exists r, job'. eexists.
      split; [by destruct r as [|[]]|]. cbn. rewrite Hjobs, Hid. cbn.
      repeat split; try done.
      destruct Hout as [(-> & [Hst|Hst]) | Hfailed]; auto.
    - match goal with
      | |- context [Worker._handle_job_failure ?e (job, ?w1)] =>
          destruct (handle_job_failure_outcome e job w1)
            as (r & job' & w' & Heq & Hid & Hcmd & Hmax & Hcr & _ & _ & Hjobs
                & Hout)
      end.
      rewrite Heq. cbn. exists r, job'. eexists.
      split; [by destruct r as [|[]]|]. cbn. rewrite Hjobs, Hid. cbn.
      repeat split; try done.
      destruct Hout as [(-> & [Hst|Hst]) | Hfailed]; auto. }
  destruct Hbody as (r & job' & w' & Heq & Hid & Hcmd & Hmax & Hcr & Hjobs
                     & Hout).
  exists r, job', w'. split; [done|].
  split. { unfold Worker._process_job. by rewrite Heq. }
  repeat split; try done.
  - unfold stored. rewrite Hjobs. apply dict_get_set_eq.
  - intros other Hne. rewrite Hjobs. by apply dict_get_set_ne.
Qed.

(** ** worker.py: the loop *)

Lemma worked_on_refl j : worked_on j j.
Proof. unfold worked_on. repeat split; try done. Qed.

Lemma worked_on_trans j1 j2 j3 :
  worked_on j1 j2 → worked_on j2 j3 → worked_on j1 j3.
Proof.
  intros (Hid & Hcmd & Hmax & Hcr & Hatt & Hsame)
         (Hid' & Hcmd' & Hmax' & Hcr' & Hatt' & Hsame').
  unfold worked_on. repeat split; try congruence; try lia.
  intros Hp Hf. specialize (Hsame Hp Hf). subst j2. by apply Hsame'.
Qed.

(** One turn either leaves the file alone or rewrites the entry of one job
    that was pending or failed. *)
Lemma loop_turn_rewrites_one_entry w :
  jobs_wf (jobs_json w) →
  ∃ r w',
    Worker.start_loop_body w = (r, w') ∧ config_json w' = config_json w ∧
    (jobs_json w' = jobs_json w ∨
     ∃ j0 job',
       stored (jobs_json w) (Job.id j0) j0 ∧
       (Job.state j0 = "pending" ∨ Job.state j0 = "failed") ∧
       Job_wf job' ∧ worked_on j0 job' ∧
       jobs_json w' =
         Storage.dict_set (jobs_json w) (Job.id j0) (Job.to_dict job')).
Proof.
  intros Hwf. destruct (jobs_wf_objects _ Hwf) as (js & Hjobs & Hjs).
  assert (Hall : ∀ j, j ∈ js → Job_wf j).
  { by apply Forall_forall. }
  pose proof (get_next_job_exact w js Hwf Hjobs) as Hnext.
  unfold Worker.start_loop_body.
  destruct (filter (λ j, Job.state j = "pending") js) as [|j0 rest] eqn:Hpending.
  - rewrite (bind_returns _ _ _ _ _ Hnext).
    destruct (List.find _ _) as [j0|] eqn:Hfind.
    + apply find_some in Hfind as [Hin _].
      apply list_elem_of_In, list_elem_of_filter in Hin as [Hst Hin].
      destruct (process_job_body_spec j0 w)
        as (r & job' & w' & Heq & Hid & Hcmd & Hmax & Hcr & Hup & Hatt & _
            & Hjobs' & Hcfg & _).
      unfold Worker._process_job. rewrite Heq.
      exists r, w'. split; [done|]. split; [done|]. right.
      exists j0, job'.
      split. { apply (objects_stored js); [done| apply Hwf |done]. }
      split; [by right|].
      destruct (Hall j0 Hin) as (Hid0 & Hcr0 & _).
      split. { repeat split; congruence. }
      split; [|done].
      unfold worked_on. repeat split; done.
    + destruct (config_get_poll_interval w) as [interval Hget].
      rewrite (bind_returns _ _ _ _ _ Hget).
      destruct (time_sleep_frame interval w) as (r & w' & -> & Hsame & Hcfg).
      exists r, w'. split; [done|]. split; [done|]. by left.
  - cbn zeta in Hnext.
    destruct Hnext as (w1 & Hrun & Hst0 & Hjobs1 & Hcfg1 & _).
    rewrite (bind_returns _ _ _ _ _ Hrun).
    assert (Hj0 : j0 ∈ filter (λ j, Job.state j = "pending") js).
    { rewrite Hpending. apply elem_of_cons. by left. }
    apply list_elem_of_filter in Hj0 as [Hstate Hin].
    match goal with
    | |- context [Worker._process_job ?claimed w1] =>
        destruct (process_job_body_spec claimed w1)
          as (r & job' & w' & Heq & Hid & Hcmd & Hmax & Hcr & Hup & Hatt & _
              & Hjobs' & Hcfg & _)
    end.
    unfold Worker._process_job. rewrite Heq. cbn in Hid, Hcmd, Hmax, Hcr, Hatt.
    exists r, w'. split; [done|]. split; [congruence|]. right.
    exists j0, job'. split; [done|]. split; [by left|].
    destruct (Hall j0 Hin) as (Hid0 & Hcr0 & _).
    split. { repeat split; congruence. }
    split.
    + unfold worked_on. repeat split; done.
    + rewrite Hjobs', Hjobs1. cbn [Job.id]. apply dict_set_set.
Qed.

Lemma loop_turn_keeps_the_file w r w' :
  jobs_wf (jobs_json w) → Worker.start_loop_body w = (r, w') →
  jobs_wf (jobs_json w') ∧ config_json w' = config_json w ∧
  (jobs_json w').*1 = (jobs_json w).*1 ∧
  ∀ job_id j, stored (jobs_json w) job_id j →
    ∃ j', stored (jobs_json w') job_id j' ∧ worked_on j j'.
Proof.
  intros Hwf Hrun.
  destruct (loop_turn_rewrites_one_entry w Hwf)
    as (r0 & w0 & Heq & Hcfg & Hcase).
  rewrite Hrun in Heq. injection Heq as <- <-.
  destruct Hcase as [Hsame | (j0 & job' & Hst0 & _ & Hjob' & Hworked & Hjobs)].
  - rewrite Hsame. split; [done|]. split; [done|]. split; [done|].
    intros job_id j Hst. exists j. split; [done | apply worked_on_refl].
  - pose proof Hworked as (Hid & _).
    split; [|split; [done|split]].
    + rewrite Hjobs, <- Hid. by apply jobs_wf_set.
    + rewrite Hjobs, dict_set_keys. rewrite decide_True; [done|].
      pose proof (dict_get_Some_elem _ _ _ Hst0) as Hin0.
      apply list_elem_of_fmap. exists (Job.id j0, Job.to_dict j0).
      split; [done | exact Hin0].
    + intros job_id j Hst.
      destruct (decide (Job.id j0 = job_id)) as [<-|Hne].
      * rewrite (stored_inj _ _ _ _ Hst Hst0). exists job'. split; [|done].
        unfold stored. rewrite Hjobs. apply dict_get_set_eq.
      * exists j. split; [|apply worked_on_refl].
        unfold stored. rewrite Hjobs. by rewrite dict_get_set_ne.
Qed.

(** X17.  However many turns the worker loop takes on a well-formed file,
    and whether it ends normally or with an exception, the worker neither
    adds nor removes a job and does not touch the configuration: the file
    stays well formed with the same ids in the same order, and every stored
    job keeps its id, command, [max_retries] and [created_at] and has at
    least as many attempts as before.  A job that was neither pending nor
    failed (completed, dead, or claimed by someone as processing) is exactly
    as it was. *)
Theorem worker_loop_keeps_the_file turns w r w' :
  jobs_wf (jobs_json w) → Worker.start_loop turns w = (r, w') →
  jobs_wf (jobs_json w') ∧ config_json w' = config_json w ∧
  (jobs_json w').*1 = (jobs_json w).*1 ∧
  ∀ job_id j, stored (jobs_json w) job_id j →
    ∃ j', stored (jobs_json w') job_id j' ∧
          Job.id j' = Job.id j ∧ Job.command j' = Job.command j ∧
          Job.max_retries j' = Job.max_retries j ∧
          Job.created_at j' = Job.created_at j ∧
          (Job.attempts j ≤ Job.attempts j')%N ∧
          (Job.state j ≠ "pending" → Job.state j ≠ "failed" → j' = j).
Proof.
  revert w. induction turns as [|turns IH]; intros w Hwf Hrun.
  - injection Hrun as <- <-. split; [done|]. split; [done|]. split; [done|].
    intros job_id j Hst. exists j. split; [done | apply worked_on_refl].
  - cbn [Worker.start_loop] in Hrun.
    destruct (Worker.start_loop_body w) as [r1 w1] eqn:Hturn.
    destruct (loop_turn_keeps_the_file w r1 w1 Hwf Hturn)
      as (Hwf1 & Hcfg1 & Hkeys1 & Hjobs1).
    destruct r1 as [e|[]].
    + rewrite (bind_raises _ _ _ _ _ Hturn) in Hrun.
      injection Hrun as <- <-. split; [done|]. split; [done|]. split; [done|].
      exact Hjobs1.
    + rewrite (bind_returns _ _ _ _ _ Hturn) in Hrun.
      destruct (IH w1 Hwf1 Hrun) as (Hwf' & Hcfg' & Hkeys' & Hjobs').
      split; [done|]. split; [congruence|]. split; [congruence|].
      intros job_id j Hst.
      destruct (Hjobs1 job_id j Hst) as (j1 & Hst1 & Hw1).
      destruct (Hjobs' job_id j1 Hst1) as (j' & Hst' & Hw').
      exists j'. split; [done|].
      apply (worked_on_trans j j1 j'); [done|].
      exact Hw'.
Qed.

Lemma worker_loop_keeps_the_file_witness :
  ∃ r w',
    Worker.start_loop 3 (sample_world (file_of [dead_job; failed_job]) ∅)
      = (r, w') ∧
    stored (jobs_json w') "job-1" dead_job ∧
    (jobs_json w').*1 = ["job-1"; "job-2"].
Proof.
  destruct (Worker.start_loop 3
              (sample_world (file_of [dead_job; failed_job]) ∅))
    as [r w'] eqn:Hrun.
  destruct (worker_loop_keeps_the_file 3
              (sample_world (file_of [dead_job; failed_job]) ∅) r w')
    as (_ & _ & Hkeys & Hjobs); [|exact Hrun|].
  { split.
    - cbn. apply NoDup_cons. split.
      + intros Hin%list_elem_of_singleton. discriminate.
      + apply NoDup_singleton.
    - repeat constructor.
      + exists dead_job. split; [repeat split; discriminate | reflexivity].
      + exists failed_job. split; [repeat split; discriminate | reflexivity]. }
  destruct (Hjobs "job-1" dead_job eq_refl)
    as (j' & Hst & _ & _ & _ & _ & _ & Hsame).
  rewrite Hsame in Hst by discriminate.
  exists r, w'. split; [reflexivity|]. split; [exact Hst | exact Hkeys].
Defined.

(** X18.  [start] registers the worker before the loop and takes the
    registration back in a [finally]: whether the loop ends normally or with
    an exception (which [start] lets through after the cleanup), no entry
    with the worker's id is left in the registry and every other entry is
    kept, in order; the jobs side is whatever the loop made of it. *)
Theorem start_always_unregisters id pid turns w (registry : Workers) :
  ∃ r w',
    Worker.start_loop turns w = (r, w') ∧
    Worker.start id pid turns (w, registry)
      = (r, (w', filter (λ entry, worker_id entry ≠ id) registry)) ∧
    (id ∉ worker_id <$> filter (λ entry, worker_id entry ≠ id) registry).
Proof.
  destruct (Worker.start_loop turns w) as [r w'] eqn:Hloop.
  exists r, w'. split; [done|]. split.
  - unfold Worker.start, in_workers, in_world, try_finally,
      Storage.register_worker, Storage.unregister_worker,
      Storage._read_workers, Storage._write_workers.
    run_st. rewrite Hloop. cbn.
    rewrite filter_app. rewrite filter_cons_False by (cbn; auto).
    rewrite filter_nil, app_nil_r. by destruct r as [|[]].
  - intros (entry & Hid & Hin)%list_elem_of_fmap.
    apply list_elem_of_filter in Hin as [Hne _]. by apply Hne.
Qed.

(** ** worker.py: a job that keeps failing *)

Lemma file_of_single_wf job : Job_wf job → jobs_wf (file_of [job]).
Proof.
  intros Hjob. split.
  - apply NoDup_singleton.
  - apply Forall_singleton. by exists job.
Qed.

(** One turn of the loop on a file holding one pending job whose command
    exits with a non-zero status. *)
Lemma turn_on_failing_job job w base :
  Job_wf job → jobs_json w = file_of [job] → Job.state job = "pending" →
  Config.get "backoff_base" w = (inr (Some base), w) → 0 ≤ base →
  (∀ n, ∃ result,
     subprocess_run (oracle w) n (Job.command job) = RunReturned result ∧
     returncode result ≠ 0) →
  (∀ n d, 0 ≤ d → sleep_raises (oracle w) n d = None) →
  ∃ job' w',
    Worker.start_loop_body w = (inr tt, w') ∧
    jobs_json w' = file_of [job'] ∧ Job_wf job' ∧
    oracle w' = oracle w ∧ config_json w' = config_json w ∧
    Job.command job' = Job.command job ∧
    Job.max_retries job' = Job.max_retries job ∧
    Job.attempts job' = (Job.attempts job + 1)%N ∧
    Job.state job' =
      (if bool_decide (Z.of_N (Job.attempts job + 1) < Job.max_retries job)
       then "pending" else "dead") ∧
    sleep_log w' =
      (if bool_decide (Z.of_N (Job.attempts job + 1) < Job.max_retries job)
       then sleep_log w ++ [base ^ Z.of_N (Job.attempts job + 1)]
       else sleep_log w).
Proof.
  intros Hjob Hfile Hstate Hbase Hnonneg Hfails Hsleeps.
  assert (Hwf : jobs_wf (jobs_json w)).
  { rewrite Hfile. by apply file_of_single_wf. }
  pose proof (get_next_job_exact w [job] Hwf Hfile) as Hnext.
  rewrite filter_cons_True in Hnext by done.
  cbn zeta in Hnext.
  destruct Hnext as (w1 & Hrun1 & _ & Hjobs1 & Hcfg1 & Ho1 & Hruns1 & Hlog1).
  unfold Worker.start_loop_body. rewrite (bind_returns _ _ _ _ _ Hrun1).
  match goal with
  | |- context [Worker._process_job ?c w1] => set (claimed := c) in *
  end.
  destruct (Hfails (runs w1)) as (result & Hresult & Hrc).
  destruct (process_failure_spec claimed w1
              (if truthy (stderr result) then stderr result
               else "Command exited with code " +:+ pretty (returncode result)))
    as (base' & job' & w' & Hbase' & Hrun & Hid & Hcmd & Hmax & Hcr & Hup
        & Hatt & _ & Hst & _ & Hjobs & Ho & Hcfg & Hlog).
  { rewrite Ho1. cbn [Job.command claimed]. rewrite Hresult. done. }
  { intros b Hb _. rewrite Ho1. apply Hsleeps.
    unfold returns in Hb. rewrite config_get_eq, Hcfg1 in Hb.
    rewrite config_get_eq in Hbase.
    assert (b = base) as -> by congruence.
    by apply Z.pow_nonneg. }
  rewrite config_get_eq, Hcfg1 in Hbase'. rewrite config_get_eq in Hbase.
  assert (base' = base) as -> by congruence.
  cbn [claimed Job.id Job.command Job.max_retries Job.created_at
       Job.attempts] in Hid, Hcmd, Hmax, Hcr, Hatt, Hst, Hlog, Hjobs.
  exists job', w'. split.
  { unfold Worker._process_job. by rewrite Hrun. }
  destruct Hjob as (Hid0 & Hcr0 & _).
  split.
  { rewrite Hjobs, Hjobs1, Hfile, dict_set_set. cbn.
    rewrite decide_True by done. by rewrite Hid. }
  split. { repeat split; congruence. }
  rewrite Hlog1 in Hlog.
  repeat split; try done; congruence.
Qed.

(** X19.  A job that keeps failing is tried [max_retries] times and then
    dead-lettered.  Take a file holding one pending job with [k + 1]
    attempts left, a command that always exits with a non-zero status, a
    non-negative [backoff_base] and sleeps that return.  Then [k + 1] turns
    of the worker loop end normally with the job dead, its attempts raised
    by [k + 1], and exactly [k] backoff sleeps in between, of
    [base ^ (attempts + 1)], ..., [base ^ (attempts + k)] seconds: none
    after the last failure. *)
Theorem failing_job_is_dead_after_max_retries k job w base :
  Job_wf job → jobs_json w = file_of [job] → Job.state job = "pending" →
  returns (Config.get "backoff_base") w (Some base) w → 0 ≤ base →
  Job.max_retries job = Z.of_N (Job.attempts job) + Z.of_nat (S k) →
  (∀ n, ∃ result,
     subprocess_run (oracle w) n (Job.command job) = RunReturned result ∧
     returncode result ≠ 0) →
  (∀ n d, 0 ≤ d → sleep_raises (oracle w) n d = None) →
  ∃ job' w',
    returns (Worker.start_loop (S k)) w tt w' ∧
    jobs_json w' = file_of [job'] ∧
    Job.state job' = "dead" ∧
    Job.attempts job' = (Job.attempts job + N.of_nat (S k))%N ∧
    sleep_log w' =
      sleep_log w ++
      ((λ i, base ^ (Z.of_N (Job.attempts job) + Z.of_nat i)) <$> seq 1 k).
Proof.
  unfold returns.
  revert job w. induction k as [|k IH];
    intros job w Hjob Hfile Hstate Hbase Hnonneg Hmax Hfails Hsleeps;
    destruct (turn_on_failing_job job w base Hjob Hfile Hstate Hbase Hnonneg
                Hfails Hsleeps)
      as (job1 & w1 & Hturn & Hfile1 & Hjob1 & Ho1 & Hcfg1 & Hcmd1 & Hmax1
          & Hatt1 & Hst1 & Hlog1).
  - rewrite bool_decide_false in Hst1, Hlog1 by lia.
    exists job1, w1. split.
    { cbn [Worker.start_loop]. by rewrite (bind_returns _ _ _ _ _ Hturn). }
    split; [done|]. split; [done|]. split; [rewrite Hatt1; lia|].
    cbn. by rewrite app_nil_r.
  - rewrite bool_decide_true in Hst1, Hlog1 by lia.
    assert (Hbase1 : Config.get "backoff_base" w1 = (inr (Some base), w1)).
    { rewrite config_get_eq, Hcfg1. rewrite config_get_eq in Hbase.
      injection Hbase as Hb. by rewrite Hb. }
    assert (Hleft : Job.max_retries job1
                    = Z.of_N (Job.attempts job1) + Z.of_nat (S k)).
    { rewrite Hmax1, Hmax, Hatt1. lia. }
    assert (Hfails1 : ∀ n, ∃ result,
              subprocess_run (oracle w1) n (Job.command job1)
                = RunReturned result ∧ returncode result ≠ 0).
    { intros n. rewrite Ho1, Hcmd1. apply Hfails. }
    assert (Hsleeps1 : ∀ n d, 0 ≤ d → sleep_raises (oracle w1) n d = None).
    { intros n d. rewrite Ho1. apply Hsleeps. }
    destruct (IH job1 w1 Hjob1 Hfile1 Hst1 Hbase1 Hnonneg Hleft Hfails1
                Hsleeps1)
      as (job' & w' & Hloop & Hfile' & Hst' & Hatt' & Hlog').
    exists job', w'. split.
    { change (Worker.start_loop (S (S k)))
        with (Worker.start_loop_body ≫= λ _, Worker.start_loop (S k)).
      by rewrite (bind_returns _ _ _ _ _ Hturn). }
    split; [done|]. split; [done|]. split; [rewrite Hatt', Hatt1; lia|].
    rewrite Hlog', Hlog1, <- app_assoc. f_equal.
    change (seq 1 (S k)) with (1%nat :: seq 2 k).
    rewrite fmap_cons, <- (fmap_S_seq 1 k), <- list_fmap_compose.
    cbn [app]. f_equal.
    + f_equal. lia.
    + apply list_fmap_ext. intros _ i _. cbn. f_equal. rewrite Hatt1. lia.
Qed.

Lemma failing_job_is_dead_after_max_retries_witness :
  ∃ job' w',
    returns (Worker.start_loop 3)
            (sample_world
               (file_of [sample_job "job-8" "false" "pending" 0 3 None None]) ∅)
            tt w' ∧
    Job.state job' = "dead" ∧ Job.attempts job' = 3%N ∧
    jobs_json w' = file_of [job'] ∧ sleep_log w' = [2; 4].
Proof.
  destruct (failing_job_is_dead_after_max_retries 2
              (sample_job "job-8" "false" "pending" 0 3 None None)
              (sample_world
                 (file_of [sample_job "job-8" "false" "pending" 0 3 None None])
                 ∅) 2)
    as (job' & w' & Hloop & Hfile & Hst & Hatt & Hlog).
  - repeat split; discriminate.
  - reflexivity.
  - reflexivity.
  - vm_compute. reflexivity.
  - lia.
  - reflexivity.
  - intros n. exists {| returncode := 1; stdout := ""; stderr := "" |}.
    split; [reflexivity | discriminate].
  - intros n d Hd. cbn. by rewrite decide_False by lia.
  - exists job', w'. split; [exact Hloop|]. split; [exact Hst|].
    split; [exact Hatt|]. split; [exact Hfile | exact Hlog].
Defined.

(** ** job.py: what every job object satisfies *)

(** X20.  No [Job] object has an empty [id], [created_at] or [updated_at]:
    [__init__] fills each of them when it is missing or empty, so this holds
    of every object it builds and of every job [from_dict] returns, whatever
    the dictionary, and [update_state] and [increment_attempts], which only
    ever write a fresh stamp, keep it. *)
Theorem job_objects_have_id_and_stamps :
  (∀ command job_id state attempts max_retries created_at updated_at
     last_error output w,
     ∃ job w',
       returns (Job.__init__ command job_id state attempts max_retries
                             created_at updated_at last_error output)
               w job w' ∧ Job_wf job) ∧
  (∀ data w job w', returns (Job.from_dict data) w job w' → Job_wf job) ∧
  (∀ state error output job w, Job_wf job →
     ∃ job' w', returns (Job.update_state state error output job) w job' w' ∧
                Job_wf job') ∧
  (∀ job w, Job_wf job →
     ∃ job' w', returns (Job.increment_attempts job) w job' w' ∧
                Job_wf job').
Proof.
  split; [|split; [|split]].
  - intros. edestruct init_wf as (job & w' & Heq & Hwf & _).
    exists job, w'. split; [exact Heq | exact Hwf].
  - intros data w job w' Hrun. unfold returns, Job.from_dict in Hrun.
    repeat match type of Hrun with
           | (?m ≫= _) ?w0 = _ =>
               let E := fresh "E" in
               destruct (m w0) as [[?|?] ?] eqn:E;
               [rewrite (bind_raises _ _ _ _ _ E) in Hrun; discriminate
               |rewrite (bind_returns _ _ _ _ _ E) in Hrun]
           end.
    match type of Hrun with
    | Job.__init__ ?c ?i ?s ?a ?m ?cr ?up ?e ?o ?w0 = _ =>
        destruct (init_wf c i s a m cr up e o w0) as (job0 & w0' & Heq & Hwf & _)
    end.
    rewrite Hrun in Heq. by injection Heq as -> _.
  - intros state error output job w (Hid & Hcr & Hup).
    destruct (update_state_returns state error output job w)
      as (now & w' & Heq & Hnow & _).
    eexists _, _. split; [exact Heq|]. by repeat split.
  - intros job w (Hid & Hcr & Hup).
    destruct (increment_attempts_returns job w) as (now & w' & Heq & Hnow & _).
    eexists _, _. split; [exact Heq|]. by repeat split.
Qed.

Lemma job_objects_have_id_and_stamps_witness :
  ∃ job w',
    returns (Job.from_dict
               (<["command" := VStr "echo hi"]> (<["id" := VNone]> ∅)))
            (sample_world [] ∅) job w' ∧
    Job_wf job.
Proof.
  destruct job_objects_have_id_and_stamps as (_ & Hfrom & _).
  eassert (Hrun : returns (Job.from_dict
                    (<["command" := VStr "echo hi"]> (<["id" := VNone]> ∅)))
                    (sample_world [] ∅) _ _).
  { vm_compute. reflexivity. }
  eexists _, _. split; [exact Hrun|]. exact (Hfrom _ _ _ _ Hrun).
Defined.
